(** * PID-Controller-Tuner: tuning rules, response metrics and stability

    A shallow embedding of the numerical core of the repository:
    - [src/tuning/ziegler_nichols.py] and [src/tuning/cohen_coon.py],
    - [src/simulation/metrics.py],
    - [src/core/transfer_function.py] and [src/simulation/open_loop.py],
    - the entry checks of [src/visualization/plotter.py].

    Number model.  Python floats that are finite are represented by exact
    rationals ([Q]); rounding is not modelled.  The three non-finite values
    a float can take are kept as separate constructors of [float], because
    the code tests for them ([np.isfinite]) and produces one of them
    ([float('inf')]).  Python's [/] on floats raises [ZeroDivisionError]
    for a zero divisor; that is modelled too.

    Where rounding decides what the code does (a product of two small
    positive floats that underflows to zero), the Ziegler-Nichols rule is
    also embedded on binary64 floats, in [Binary64], with the operations of
    IEEE 754 as Python has them. *)

From Stdlib Require Import QArith Qabs Qminmax ZArith String Bool Lia Lqa List.
From Stdlib Require PrimFloat.
Import ListNotations.

Open Scope Q_scope.

(** ** Floats *)

Inductive float : Type :=
| Fin (q : Q)
| PInf
| NInf
| NaN.

(** [np.isfinite] on one element. *)
Definition isfinite (x : float) : bool :=
  match x with Fin _ => true | _ => false end.

(** Equality of floats up to the representation of the rational. *)
Definition float_eq (x y : float) : Prop :=
  match x, y with
  | Fin a, Fin b => a == b
  | PInf, PInf => True
  | NInf, NInf => True
  | _, _ => False
  end.

(** Strict comparison of rationals as a boolean. *)
Definition Qlt_bool (x y : Q) : bool := negb (Qle_bool y x).

(** ** Results of fallible operations *)

Inductive result (E A : Type) : Type :=
| Ok (a : A)
| Raise (e : E).

Arguments Ok {E A} a.
Arguments Raise {E A} e.

(** ** Array operations of NumPy used by the code *)

(** [np.max] of a non-empty array. *)
Definition np_max (a : list Q) : Q :=
  match a with
  | [] => 0
  | x :: r => fold_left Qmax r x
  end.

(** [np.any] of a boolean array. *)
Definition np_any (m : list bool) : bool := existsb (fun b => b) m.

(** [np.where(m)[0]]: the indices of the true entries, ascending. *)
Fixpoint where_from (i : nat) (m : list bool) : list nat :=
  match m with
  | [] => []
  | b :: r => if b then i :: where_from (S i) r else where_from (S i) r
  end.

Definition np_where (m : list bool) : list nat := where_from 0 m.

(** [np.all] of a boolean array. *)
Definition np_all (m : list bool) : bool := forallb (fun b => b) m.

(** [np.linspace(start, stop, num)]: [num] evenly spaced points, the last
    one being [stop]. *)
Definition np_linspace (start stop : Q) (num : nat) : list Q :=
  let step := (stop - start) / inject_Z (Z.of_nat (num - 1)) in
  map (fun i => start + inject_Z (Z.of_nat i) * step) (seq 0 num).

(** ** Tuning rules *)

Module Tuning.

(** The messages a [TuningError] is raised with, one per check. *)
Inductive tuning_msg : Type :=
| K_not_positive (K : Q)
| L_negative (L : Q)
| T_not_positive (T : Q)
| bad_criterion (criterion : string)
| bad_control_type (control_type : string).

(** What a call can raise: the module's own [TuningError], or Python's
    [ZeroDivisionError] from a float division. *)
Inductive exn : Type :=
| TuningError (m : tuning_msg)
| ZeroDivisionError.

(** The error kinds of the specification. *)
Inductive error_kind : Type :=
| InvalidModel
| InvalidCriterion
| InvalidControlType
| Unclassified.

Definition kind_of (e : exn) : error_kind :=
  match e with
  | TuningError (K_not_positive _) => InvalidModel
  | TuningError (L_negative _) => InvalidModel
  | TuningError (T_not_positive _) => InvalidModel
  | TuningError (bad_criterion _) => InvalidCriterion
  | TuningError (bad_control_type _) => InvalidControlType
  | ZeroDivisionError => Unclassified
  end.

(** The lines the Ziegler-Nichols routine prints on standard output. *)
Inductive line : Type :=
| advertencia_relacion (ratio : Q)
| metodo_menos_preciso
| considera_cohen_coon.

Definition pid : Type := (float * float * float)%type.

Definition pid_eq (a b : pid) : Prop :=
  let '(kp, ti, td) := a in
  let '(kp', ti', td') := b in
  float_eq kp kp' /\ float_eq ti ti' /\ float_eq td td'.

(** Python's [x / y] on floats. *)
Definition fdiv (x y : Q) : result exn Q :=
  if Qeq_bool y 0 then Raise ZeroDivisionError else Ok (x / y).

Definition bind {A B} (r : result exn A) (f : A -> result exn B) : result exn B :=
  match r with
  | Ok a => f a
  | Raise e => Raise e
  end.

Notation "x <- r ;; k" := (bind r (fun x => k))
  (at level 61, r at next level, right associativity).

(** [x in [..]] on a list of strings. *)
Definition str_in (s : string) (l : list string) : bool :=
  existsb (String.eqb s) l.

(** [sintonia_pid_ziegler_nichols(K, L, T, control_type)]: the printed
    lines and the outcome. *)
Definition sintonia_pid_ziegler_nichols (K L T : Q) (control_type : string)
  : list line * result exn pid :=
  if Qle_bool K 0 then ([], Raise (TuningError (K_not_positive K)))
  else if Qlt_bool L 0 then ([], Raise (TuningError (L_negative L)))
  else if Qle_bool T 0 then ([], Raise (TuningError (T_not_positive T)))
  else if negb (str_in control_type ["P"; "PI"; "PID"]%string)
  then ([], Raise (TuningError (bad_control_type control_type)))
  else
    (* T > 0 here, so the division L / T does not raise *)
    let out :=
      if Qlt_bool 0.5 (L / T)
      then [advertencia_relacion (L / T); metodo_menos_preciso; considera_cohen_coon]
      else [] in
    (out,
     if String.eqb control_type "P" then
       Kp <- fdiv T (L * K) ;;
       Ok (Fin Kp, PInf, Fin 0.0)
     else if String.eqb control_type "PI" then
       Kp <- fdiv (0.9 * T) (L * K) ;;
       Ok (Fin Kp, Fin (3.33 * L), Fin 0.0)
     else
       Kp <- fdiv (1.2 * T) (L * K) ;;
       Ok (Fin Kp, Fin (2.0 * L), Fin (0.5 * L))).

(** [sintonia_pid_cohen_coon(K, L, T, criterion, control_type)]. *)
Definition sintonia_pid_cohen_coon (K L T : Q) (criterion control_type : string)
  : result exn pid :=
  if Qle_bool K 0 then Raise (TuningError (K_not_positive K))
  else if Qlt_bool L 0 then Raise (TuningError (L_negative L))
  else if Qle_bool T 0 then Raise (TuningError (T_not_positive T))
  else if negb (str_in criterion ["IAE"; "ISE"; "ITAE"]%string)
  then Raise (TuningError (bad_criterion criterion))
  else if negb (str_in control_type ["PI"; "PID"]%string)
  then Raise (TuningError (bad_control_type control_type))
  else
    (* T > 0 here, so the division L / T does not raise *)
    let ratio := L / T in
    r <-
      (if String.eqb criterion "IAE" then
         if Qlt_bool ratio 0.3 then
           Kp <- fdiv (1.35 * T) (L * K) ;;
           Ok (Kp, 2.5 * L, 0.37 * L)
         else
           q <- fdiv T (L * K) ;;
           Ti <- fdiv (L * (32.0 + 6.0 * ratio)) (13.0 + 8.0 * ratio) ;;
           Td <- fdiv (4.0 * L) (11.0 + 2.0 * ratio) ;;
           Ok (q * (4.0 / 3.0 + ratio / 4.0), Ti, Td)
       else if String.eqb criterion "ISE" then
         Kp <- fdiv (1.495 * T) (L * K) ;;
         Ok (Kp, 1.57 * L, 0.735 * L)
       else
         Kp <- fdiv (0.859 * T) (L * K) ;;
         Ok (Kp, 0.674 * L, 0.134 * L)) ;;
    let '(Kp, Ti, Td) := r in
    let Td := if String.eqb control_type "PI" then 0.0 else Td in
    Ok (Fin Kp, Fin Ti, Fin Td).

(** The tables of the two rules, written once as the specification has
    them, for a model with a nonzero dead time. *)
Definition spec_ziegler_nichols (K L T : Q) (control_type : string) : pid :=
  if String.eqb control_type "P" then (Fin (T / (L * K)), PInf, Fin 0)
  else if String.eqb control_type "PI" then (Fin (0.9 * T / (L * K)), Fin (3.33 * L), Fin 0)
  else (Fin (1.2 * T / (L * K)), Fin (2 * L), Fin (0.5 * L)).

Definition spec_cohen_coon (K L T : Q) (criterion : string) : Q * Q * Q :=
  let r := L / T in
  if String.eqb criterion "IAE" then
    if Qlt_bool r 0.3 then (1.35 * T / (L * K), 2.5 * L, 0.37 * L)
    else ((T / (L * K)) * (4 / 3 + r / 4), L * (32 + 6 * r) / (13 + 8 * r), 4 * L / (11 + 2 * r))
  else if String.eqb criterion "ISE" then (1.495 * T / (L * K), 1.57 * L, 0.735 * L)
  else (0.859 * T / (L * K), 0.674 * L, 0.134 * L).

(** The high-ratio warning block of Ziegler-Nichols. *)
Definition zn_warning (L T : Q) : list line :=
  [advertencia_relacion (L / T); metodo_menos_preciso; considera_cohen_coon].

Definition valid_model (K L T : Q) : Prop := 0 < K /\ 0 <= L /\ 0 < T.

End Tuning.

(** ** Response metrics *)

Module Metrics.

(** The messages a [MetricaError] is raised with, one per check. *)
Inductive metrica_msg : Type :=
| too_few_samples (n : nat)
| size_mismatch (nt ny : nat)
| t_not_finite
| y_not_finite
| yref_zero (yref : Q)
| tolerance_out_of_range (tolerance : Q).

Inductive exn : Type :=
| MetricaError (m : metrica_msg).

(** The returned dictionary: keys in insertion order. *)
Definition dict : Type := list (string * Q).

Fixpoint dict_get (k : string) (d : dict) : option Q :=
  match d with
  | [] => None
  | (k', v) :: r => if String.eqb k k' then Some v else dict_get k r
  end.

Definition dict_keys (d : dict) : list string := map fst d.

(** [np.any(~np.isfinite(a))]. *)
Definition any_not_finite (a : list float) : bool :=
  existsb (fun x => negb (isfinite x)) a.

(** The entries of an array whose elements all passed [np.isfinite]
    (the default is never used on such an array). *)
Definition values (a : list float) : list Q :=
  map (fun x => match x with Fin q => q | _ => 0 end) a.

(** [calcular_metricas_respuesta(t, y, yref, tolerance)].  The arrays may
    hold non-finite floats; the two scalars are taken finite. *)
Definition calcular_metricas_respuesta (t y : list float) (yref tolerance : Q)
  : result exn dict :=
  if (length t <? 10)%nat then
    Raise (MetricaError (too_few_samples (length t)))
  else if negb (length t =? length y)%nat then
    Raise (MetricaError (size_mismatch (length t) (length y)))
  else if any_not_finite t then Raise (MetricaError t_not_finite)
  else if any_not_finite y then Raise (MetricaError y_not_finite)
  else if Qeq_bool yref 0.0 then Raise (MetricaError (yref_zero yref))
  else if Qle_bool tolerance 0 || Qle_bool 1 tolerance then
    Raise (MetricaError (tolerance_out_of_range tolerance))
  else
    let t := values t in
    let y := values y in
    let y_max := np_max y in
    let y_final := last y 0 in
    let ess := yref - y_final in
    let ess_percent := (ess / yref) * 100.0 in
    let Mp := (y_max - yref) / Qabs yref * 100.0 in
    let settling_band := tolerance * Qabs yref in
    let error := map (fun v => Qabs (v - yref)) y in
    let within_band := map (fun e => Qle_bool e settling_band) error in
    let ts :=
      if negb (np_any within_band) then last t 0
      else
        let indices_out := np_where (map negb within_band) in
        if (length indices_out =? 0)%nat then nth 0 t 0
        else
          let last_out := last indices_out 0%nat in
          if (last_out + 1 <? length t)%nat then nth (last_out + 1) t 0
          else last t 0 in
    Ok [("ts", ts); ("Mp", Mp); ("ess", ess); ("ess_percent", ess_percent);
        ("y_max", y_max); ("y_final", y_final);
        ("settling_band", settling_band)]%string.

(** The band test of the code, sample by sample. *)
Definition within_band (y : list Q) (yref tolerance : Q) : list bool :=
  map (fun e => Qle_bool e (tolerance * Qabs yref)) (map (fun v => Qabs (v - yref)) y).

(** The settling time the code computes from the band test. *)
Definition ts_of (t y : list Q) (yref tolerance : Q) : Q :=
  if negb (np_any (within_band y yref tolerance)) then last t 0
  else
    let indices_out := np_where (map negb (within_band y yref tolerance)) in
    if (length indices_out =? 0)%nat then nth 0 t 0
    else
      let last_out := last indices_out 0%nat in
      if (last_out + 1 <? length t)%nat then nth (last_out + 1) t 0 else last t 0.

(** A sample value lies inside the tolerance band around the reference. *)
Definition in_band (yref tolerance v : Q) : Prop :=
  Qabs (v - yref) <= tolerance * Qabs yref.

(** A trace that passes every entry check. *)
Definition valid_trace (t y : list Q) (yref tolerance : Q) : Prop :=
  (10 <= length t)%nat /\ length t = length y /\
  ~ yref == 0 /\ 0 < tolerance /\ tolerance < 1.

(** The inputs the entry checks reject. *)
Definition rejected_trace (t y : list float) (yref tolerance : Q) : Prop :=
  length t <> length y \/
  (length t < 10)%nat \/
  (exists x, In x t /\ isfinite x = false) \/
  (exists x, In x y /\ isfinite x = false) \/
  yref == 0 \/
  tolerance <= 0 \/ 1 <= tolerance.

End Metrics.

(** ** Transfer functions *)

Module TransferFunction.

(** A complex number with float parts. *)
Record complex : Type := mkC { re : Q; im : Q }.

Definition Cadd (a b : complex) : complex := mkC (re a + re b) (im a + im b).
Definition Cmul (a b : complex) : complex :=
  mkC (re a * re b - im a * im b) (re a * im b + im a * re b).

(** The [TransferFunction] object of python-control, as far as the code
    looks into it: the coefficient arrays, in descending powers of s, and
    the array its [poles()] method returns.  Root finding is the
    library's; an object is taken with its poles. *)
Record TransferFunction : Type := mkTF {
  num : list Q;
  den : list Q;
  poles : list complex
}.

(** Horner evaluation of a polynomial at a complex point. *)
Definition polyval (p : list Q) (z : complex) : complex :=
  fold_left (fun acc c => Cadd (Cmul acc z) (mkC c 0)) p (mkC 0 0).

(** The poles an object carries are roots of its denominator, one per degree. *)
Definition poles_are_roots (tf : TransferFunction) : Prop :=
  S (length (poles tf)) = length (den tf) /\
  Forall (fun z => re (polyval (den tf) z) == 0 /\ im (polyval (den tf) z) == 0) (poles tf).

(** [get_poles(tf)]. *)
Definition get_poles (tf : TransferFunction) : list complex := poles tf.

(** [np.real] of an array. *)
Definition np_real (a : list complex) : list Q := map re a.

(** [is_stable(tf, tolerance)]. *)
Definition is_stable (tf : TransferFunction) (tolerance : Q) : bool :=
  let poles := get_poles tf in
  np_all (map (fun r => Qlt_bool r (- tolerance)) (np_real poles)).

(** The default of the [tolerance] argument of [is_stable]. *)
Definition default_tolerance : Q := 1 # 10000000000.

(** 1/(s+1) and 1/(s-1), with their analytic poles. *)
Definition tf_stable : TransferFunction := mkTF [1] [1; 1] [mkC (-1) 0].
Definition tf_unstable : TransferFunction := mkTF [1] [1; -1] [mkC 1 0].

End TransferFunction.

(** ** Open-loop simulation *)

Module OpenLoop.
Import TransferFunction.

(** The messages a [SimulationError] is raised with. *)
Inductive simulation_msg : Type :=
| tf_is_none
| unstable_system
| too_few_points
| magnitude_not_positive
| t_final_not_positive
| step_response_failed.

Inductive exn : Type :=
| SimulationError (m : simulation_msg).

(** [_estimate_settling_time(tf, tolerance, max_time)].  It reads the
    poles through [tf.pole()], the older name of [poles()]. *)
Definition _estimate_settling_time (tf : TransferFunction) (tolerance max_time : Q) : Q :=
  let poles := poles tf in
  if (length poles =? 0)%nat then 10.0
  else
    let real_parts := np_real poles in
    let slowest_pole := np_max real_parts in
    if Qle_bool 0 slowest_pole then max_time
    else
      let ts_estimate := -5.0 / slowest_pole in
      Qmin ts_estimate max_time.

(** The defaults of [_estimate_settling_time]. *)
Definition estimate_default (tf : TransferFunction) : Q :=
  _estimate_settling_time tf 0.05 1000.0.

(** The first part of [simulate_step_response]: the entry checks, the
    choice of the final time and the time vector handed to the
    integrator. *)
Definition simulation_time (tf : option TransferFunction) (t_final : option Q)
    (num_points : Z) (input_magnitude : Q) : result exn (TransferFunction * list Q) :=
  match tf with
  | None => Raise (SimulationError tf_is_none)
  | Some tf =>
    if negb (is_stable tf default_tolerance) then Raise (SimulationError unstable_system)
    else if (num_points <? 10)%Z then Raise (SimulationError too_few_points)
    else if Qle_bool input_magnitude 0 then Raise (SimulationError magnitude_not_positive)
    else
      match t_final with
      | None =>
          Ok (tf, np_linspace 0 (estimate_default tf) (Z.to_nat num_points))
      | Some t_final =>
          if Qle_bool t_final 0 then Raise (SimulationError t_final_not_positive)
          else Ok (tf, np_linspace 0 t_final (Z.to_nat num_points))
      end
  end.

Section Simulation.

(** [ct.step_response(tf, T=time)] of python-control: the pair of arrays
    it returns, or nothing when it raises. *)
Variable ct_step_response : TransferFunction -> list Q -> option (list Q * list Q).

(** [simulate_step_response(tf, t_final, num_points, input_magnitude)]. *)
Definition simulate_step_response (tf : option TransferFunction) (t_final : option Q)
    (num_points : Z) (input_magnitude : Q) : result exn (list Q * list Q) :=
  match simulation_time tf t_final num_points input_magnitude with
  | Raise e => Raise e
  | Ok (tf, time) =>
      match ct_step_response tf time with
      | Some (t_response, y_response) =>
          Ok (t_response, map (fun v => v * input_magnitude) y_response)
      | None => Raise (SimulationError step_response_failed)
      end
  end.

End Simulation.

(** An integrator that always raises: enough to run the entry checks. *)
Definition failing_step_response (tf : TransferFunction) (time : list Q)
  : option (list Q * list Q) := None.

End OpenLoop.

(** ** Example traces *)

Module Examples.

Definition t_example : list Q := [0; 1; 2; 3; 4; 5; 6; 7; 8; 9].
Definition y_example : list Q := [0; 0.5; 0.9; 1.2; 1.1; 0.9; 0.97; 1.01; 1; 1].

End Examples.

(** ** Wrappers around the tuning rules *)

Module TuningWrappers.
Import Tuning Metrics.

(** A value of the dictionary a wrapper returns. *)
Inductive value : Type :=
| VFloat (f : float)
| VStr (s : string).

Fixpoint lookup (k : string) (d : list (string * value)) : option value :=
  match d with
  | [] => None
  | (k', v) :: r => if String.eqb k k' then Some v else lookup k r
  end.

(** What the dictionary wrapper can raise: its own [TuningError] for a
    missing key (with the key in the message), or whatever the rule raises. *)
Inductive wrapper_exn : Type :=
| incomplete_fopdt (key : string)
| from_rule (e : Tuning.exn).

(** [tune_ziegler_nichols_from_fopdt(fopdt_dict, control_type)]. *)
Definition tune_ziegler_nichols_from_fopdt (fopdt_dict : dict) (control_type : string)
  : list line * result wrapper_exn (list (string * value)) :=
  match dict_get "K" fopdt_dict with
  | None => ([], Raise (incomplete_fopdt "K"))
  | Some K =>
    match dict_get "L" fopdt_dict with
    | None => ([], Raise (incomplete_fopdt "L"))
    | Some L =>
      match dict_get "T" fopdt_dict with
      | None => ([], Raise (incomplete_fopdt "T"))
      | Some T =>
        let '(out, r) := sintonia_pid_ziegler_nichols K L T control_type in
        (out,
         match r with
         | Raise e => Raise (from_rule e)
         | Ok (Kp, Ti, Td) =>
             Ok [("Kp", VFloat Kp); ("Ti", VFloat Ti); ("Td", VFloat Td);
                 ("method", VStr "Ziegler-Nichols")]%string
         end)
      end
    end
  end.

(** The dictionary [comparar_ziegler_vs_cohen_coon] returns. *)
Record comparison : Type := mkComparison {
  ZN : pid;
  CC : pid;
  ratio_L_T : Q
}.

(** [comparar_ziegler_vs_cohen_coon(K, L, T)]. *)
Definition comparar_ziegler_vs_cohen_coon (K L T : Q)
  : list line * result Tuning.exn comparison :=
  let '(out, zn) := sintonia_pid_ziegler_nichols K L T "PID" in
  (out,
   match zn with
   | Raise e => Raise e
   | Ok p_zn =>
       match sintonia_pid_cohen_coon K L T "IAE" "PID" with
       | Raise e => Raise e
       | Ok p_cc =>
           (* both rules returned, so T > 0 and L / T does not raise *)
           Ok (mkComparison p_zn p_cc (L / T))
       end
   end).

End TuningWrappers.

(** ** Comparison of two metric reports *)

Module MetricsCompare.
Import Metrics.

(** The dictionary [comparar_metricas] returns. *)
Record report : Type := mkReport {
  planta : dict;
  controlada : dict;
  mejora_relativa : dict
}.

(** One round of the loop over the keys: the entry it adds, if any. *)
Definition mejora_entry (metricas_planta metricas_controlada : dict) (key : string)
  : dict :=
  match dict_get key metricas_planta, dict_get key metricas_controlada with
  | Some v1, Some v2 =>
      [(key, if negb (Qeq_bool v1 0) then (v1 - v2) / Qabs v1 else 0.0)]
  | _, _ => []
  end.

(** [comparar_metricas(metricas_planta, metricas_controlada)]. *)
Definition comparar_metricas (metricas_planta metricas_controlada : dict) : report :=
  let mejora :=
    flat_map (mejora_entry metricas_planta metricas_controlada)
             ["ts"; "ess"; "Mp"]%string in
  mkReport metricas_planta metricas_controlada mejora.

(** The improvement the loop records for a pair of values. *)
Definition mejora_of (v1 v2 : Q) : Q :=
  if negb (Qeq_bool v1 0) then (v1 - v2) / Qabs v1 else 0.0.

End MetricsCompare.

(** ** Construction and DC gain of transfer functions *)

Module TransferFunctionBuild.
Import Metrics TransferFunction.

(** The messages an [InvalidTransferFunctionError] is raised with. *)
Inductive tf_msg : Type :=
| numerator_empty
| denominator_empty
| denominator_all_zeros
| coefficients_nan
| coefficients_inf
| constructor_failed.

Inductive exn : Type :=
| InvalidTransferFunctionError (m : tf_msg).

Definition isnan (x : float) : bool :=
  match x with NaN => true | _ => false end.

Definition isinf (x : float) : bool :=
  match x with PInf | NInf => true | _ => false end.

(** [np.allclose(a, 0)] with the default tolerances: every entry is
    finite and at most 1e-8 in absolute value. *)
Definition np_allclose_zero (a : list float) : bool :=
  forallb (fun x => match x with
                    | Fin q => Qle_bool (Qabs q) (1 # 100000000)
                    | _ => false
                    end) a.

Section Constructor.

(** [ct.TransferFunction(num, den)] of python-control: the object it
    builds, or nothing when it raises. *)
Variable ct_TransferFunction : list Q -> list Q -> option TransferFunction.

(** [create_transfer_function(numerator, denominator)], on arrays of
    floats (the conversion of the arguments to float arrays has succeeded). *)
Definition create_transfer_function (numerator denominator : list float)
  : result exn TransferFunction :=
  if (length numerator =? 0)%nat then Raise (InvalidTransferFunctionError numerator_empty)
  else if (length denominator =? 0)%nat then
    Raise (InvalidTransferFunctionError denominator_empty)
  else if np_allclose_zero denominator then
    Raise (InvalidTransferFunctionError denominator_all_zeros)
  else if existsb isnan numerator || existsb isnan denominator then
    Raise (InvalidTransferFunctionError coefficients_nan)
  else if existsb isinf numerator || existsb isinf denominator then
    Raise (InvalidTransferFunctionError coefficients_inf)
  else
    match ct_TransferFunction (values numerator) (values denominator) with
    | Some tf => Ok tf
    | None => Raise (InvalidTransferFunctionError constructor_failed)
    end.

End Constructor.

(** [np.polyval(p, x)]: Horner evaluation, coefficients in descending powers. *)
Definition np_polyval (p : list Q) (x : Q) : Q :=
  fold_left (fun y c => y * x + c) p 0.

Inductive gain_exn : Type :=
| ValueError.

(** [get_dc_gain(tf)]. *)
Definition get_dc_gain (tf : TransferFunction) : result gain_exn Q :=
  let num_at_0 := np_polyval (num tf) 0 in
  let den_at_0 := np_polyval (den tf) 0 in
  if Qlt_bool (Qabs den_at_0) (1 # 1000000000000000) then Raise ValueError
  else Ok (num_at_0 / den_at_0).

End TransferFunctionBuild.

(** ** Several open-loop simulations *)

Module Scenarios.
Import TransferFunction OpenLoop.

(** What [simulate_multiple_scenarios] can raise: its own
    [SimulationError] for lists of different lengths, or the error of one
    of the simulations. *)
Inductive scenarios_exn : Type :=
| lengths_differ
| from_simulation (e : OpenLoop.exn).

Section Scenarios.

Variable ct_step_response : TransferFunction -> list Q -> option (list Q * list Q).

(** The loop over [zip(tf_list, labels)]: it stops at the first
    simulation that raises. *)
Fixpoint scenarios_loop (pairs : list (TransferFunction * string))
    (t_final : option Q) (num_points : Z)
  : result scenarios_exn (list (list Q * list Q * string)) :=
  match pairs with
  | [] => Ok []
  | (tf, label) :: rest =>
      match simulate_step_response ct_step_response (Some tf) t_final num_points 1.0 with
      | Raise e => Raise (from_simulation e)
      | Ok (time, output) =>
          match scenarios_loop rest t_final num_points with
          | Raise e => Raise e
          | Ok results => Ok ((time, output, label) :: results)
          end
      end
  end.

(** [simulate_multiple_scenarios(tf_list, labels, t_final, num_points)]. *)
Definition simulate_multiple_scenarios (tf_list : list TransferFunction)
    (labels : list string) (t_final : option Q) (num_points : Z)
  : result scenarios_exn (list (list Q * list Q * string)) :=
  if negb (length tf_list =? length labels)%nat then Raise lengths_differ
  else scenarios_loop (combine tf_list labels) t_final num_points.

End Scenarios.

(** The horizon a call simulates: the requested final time, or the
    settling estimate when none is requested. *)
Definition horizon (tf : TransferFunction) (t_final : option Q) : Q :=
  match t_final with
  | Some h => h
  | None => estimate_default tf
  end.

(** A stand-in for the integrator that returns the time vector it is
    given and an output of the same length (all zeros, the response of a
    zero numerator). *)
Definition zero_step_response (tf : TransferFunction) (time : list Q)
  : option (list Q * list Q) := Some (time, map (fun _ => 0) time).

(** A stand-in for the integrator that returns the time vector it is
    given and, as output, that same vector (a unit ramp). *)
Definition ramp_step_response (tf : TransferFunction) (time : list Q)
  : option (list Q * list Q) := Some (time, time).

End Scenarios.

(** ** Entry checks of the comparison plot *)

Module Plotter.
Import Metrics.

(** The messages a [VisualizacionError] is raised with, one per check. *)
Inductive visualizacion_msg : Type :=
| t_planta_too_short (n : nat)
| t_pid_too_short (n : nat)
| planta_size_mismatch (nt ny : nat)
| pid_size_mismatch (nt ny : nat)
| plot_yref_zero
| plot_tolerance_out_of_range (tolerance : Q)
| planta_not_finite
| pid_not_finite.

Inductive exn : Type :=
| VisualizacionError (m : visualizacion_msg).

(** The entry checks of [graficar_respuestas(t_planta, y_planta, t_pid,
    y_pid, yref, tolerance)]; what follows them in the source is the
    drawing, done by matplotlib. *)
Definition graficar_respuestas_checks (t_planta y_planta t_pid y_pid : list float)
    (yref tolerance : Q) : result exn unit :=
  if (length t_planta <? 10)%nat then
    Raise (VisualizacionError (t_planta_too_short (length t_planta)))
  else if (length t_pid <? 10)%nat then
    Raise (VisualizacionError (t_pid_too_short (length t_pid)))
  else if negb (length t_planta =? length y_planta)%nat then
    Raise (VisualizacionError (planta_size_mismatch (length t_planta) (length y_planta)))
  else if negb (length t_pid =? length y_pid)%nat then
    Raise (VisualizacionError (pid_size_mismatch (length t_pid) (length y_pid)))
  else if Qeq_bool yref 0.0 then Raise (VisualizacionError plot_yref_zero)
  else if Qle_bool tolerance 0 || Qle_bool 1 tolerance then
    Raise (VisualizacionError (plot_tolerance_out_of_range tolerance))
  else if any_not_finite t_planta || any_not_finite y_planta then
    Raise (VisualizacionError planta_not_finite)
  else if any_not_finite t_pid || any_not_finite y_pid then
    Raise (VisualizacionError pid_not_finite)
  else Ok tt.

End Plotter.

(** ** The Ziegler-Nichols rule on binary64 floats *)

Module Binary64.
Import PrimFloat.
Local Set Warnings "-inexact-float".

(** The messages a [TuningError] is raised with, one per check. *)
Inductive tuning_msg : Type :=
| K_not_positive (K : float)
| L_negative (L : float)
| T_not_positive (T : float)
| bad_control_type (control_type : string).

Inductive exn : Type :=
| TuningError (m : tuning_msg)
| ZeroDivisionError.

(** The lines the routine prints on standard output. *)
Inductive line : Type :=
| advertencia_relacion (ratio : float)
| metodo_menos_preciso
| considera_cohen_coon.

(** Python's [x / y] on floats: it raises for a divisor equal to zero
    (of either sign), and follows IEEE 754 otherwise. *)
Definition fdiv (x y : float) : result exn float :=
  if (y =? 0)%float then Raise ZeroDivisionError else Ok (x / y)%float.

Definition bind {A B} (r : result exn A) (f : A -> result exn B) : result exn B :=
  match r with
  | Ok a => f a
  | Raise e => Raise e
  end.

(** [sintonia_pid_ziegler_nichols(K, L, T, control_type)] on binary64
    floats: the printed lines and the outcome. *)
Definition sintonia_pid_ziegler_nichols (K L T : float) (control_type : string)
  : list line * result exn (float * float * float) :=
  if (K <=? 0)%float then ([], Raise (TuningError (K_not_positive K)))
  else if (L <? 0)%float then ([], Raise (TuningError (L_negative L)))
  else if (T <=? 0)%float then ([], Raise (TuningError (T_not_positive T)))
  else if negb (Tuning.str_in control_type ["P"; "PI"; "PID"]%string)
  then ([], Raise (TuningError (bad_control_type control_type)))
  else
    match fdiv L T with
    | Raise e => ([], Raise e)
    | Ok ratio =>
        let out :=
          if (0.5 <? ratio)%float
          then [advertencia_relacion ratio; metodo_menos_preciso; considera_cohen_coon]
          else [] in
        (out,
         if String.eqb control_type "P" then
           bind (fdiv T (L * K)%float) (fun Kp => Ok (Kp, infinity, 0%float))
         else if String.eqb control_type "PI" then
           bind (fdiv (0.9 * T)%float (L * K)%float)
                (fun Kp => Ok (Kp, (3.33 * L)%float, 0%float))
         else
           bind (fdiv (1.2 * T)%float (L * K)%float)
                (fun Kp => Ok (Kp, (2.0 * L)%float, (0.5 * L)%float)))
    end.

(** A small positive float, the literal [1e-200] of Python. *)
Definition tiny : float := 1e-200%float.

End Binary64.

(** * Facts *)

(** ** Order on rationals *)

Lemma Qlt_bool_iff (x y : Q) : Qlt_bool x y = true <-> x < y.
Proof.
  unfold Qlt_bool. rewrite negb_true_iff, <- not_true_iff_false, Qle_bool_iff.
  split; intro H; [apply Qnot_le_lt | apply Qlt_not_le]; exact H.
Qed.

Lemma Qlt_bool_false_iff (x y : Q) : Qlt_bool x y = false <-> y <= x.
Proof.
  unfold Qlt_bool. rewrite negb_false_iff. apply Qle_bool_iff.
Qed.

Lemma Qle_bool_false_iff (x y : Q) : Qle_bool x y = false <-> y < x.
Proof.
  rewrite <- not_true_iff_false, Qle_bool_iff.
  split; intro H; [apply Qnot_le_lt | apply Qlt_not_le]; exact H.
Qed.

(** ** Facts about the tuning rules *)

Module TuningFacts.
Import Tuning.

(** Turn the outcome of a boolean comparison into the order fact. *)
Ltac order_facts :=
  repeat match goal with
  | H : Qle_bool _ _ = true |- _ => apply Qle_bool_iff in H
  | H : Qle_bool _ _ = false |- _ => apply Qle_bool_false_iff in H
  | H : Qlt_bool _ _ = true |- _ => apply Qlt_bool_iff in H
  | H : Qlt_bool _ _ = false |- _ => apply Qlt_bool_false_iff in H
  | H : Qeq_bool _ _ = true |- _ => apply Qeq_bool_iff in H
  | H : Qeq_bool _ _ = false |- _ => apply Qeq_bool_neq in H
  end.

Lemma Qle_bool_gt (x y : Q) : y < x -> Qle_bool x y = false.
Proof. intro H. apply Qle_bool_false_iff. exact H. Qed.

Lemma Qlt_bool_ge (x y : Q) : y <= x -> Qlt_bool x y = false.
Proof. intro H. apply Qlt_bool_false_iff. exact H. Qed.

Lemma Qlt_bool_lt (x y : Q) : x < y -> Qlt_bool x y = true.
Proof. intro H. apply Qlt_bool_iff. exact H. Qed.

Lemma fdiv_ok (x y : Q) : ~ y == 0 -> fdiv x y = Ok (x / y).
Proof.
  intro H. unfold fdiv. destruct (Qeq_bool y 0) eqn:E; [|reflexivity].
  apply Qeq_bool_iff in E. contradiction.
Qed.

Lemma fdiv_zero (x y : Q) : y == 0 -> fdiv x y = Raise ZeroDivisionError.
Proof.
  intro H. unfold fdiv. apply Qeq_bool_iff in H. rewrite H. reflexivity.
Qed.

Lemma product_nonzero (K L : Q) : 0 < K -> 0 < L -> ~ L * K == 0.
Proof.
  intros HK HL E. assert (0 < L * K) by (apply Qmult_lt_0_compat; assumption).
  rewrite E in H. apply (Qlt_irrefl 0). exact H.
Qed.

Lemma ratio_positive (L T : Q) : 0 < L -> 0 < T -> 0 < L / T.
Proof.
  intros HL HT. unfold Qdiv. apply Qmult_lt_0_compat; [exact HL|].
  apply Qinv_lt_0_compat. exact HT.
Qed.

(** A ratio above a positive bound needs a positive dead time. *)
Lemma high_ratio_positive_L (L T c : Q) :
  0 <= c -> 0 < T -> c < L / T -> 0 < L.
Proof.
  intros Hc HT Hr.
  destruct (Qlt_le_dec 0 L) as [H|H]; [exact H|].
  exfalso.
  assert (L / T <= 0).
  { unfold Qdiv. setoid_replace 0 with (0 * / T) by ring.
    apply Qmult_le_compat_r; [exact H|].
    apply Qlt_le_weak, Qinv_lt_0_compat. exact HT. }
  lra.
Qed.

(** The supported control types of Ziegler-Nichols are exactly three strings. *)
Lemma zn_control_types (c : string) :
  str_in c ["P"; "PI"; "PID"]%string = true ->
  c = "P"%string \/ c = "PI"%string \/ c = "PID"%string.
Proof.
  unfold str_in. cbn [existsb]. rewrite !orb_true_iff, !String.eqb_eq.
  intuition discriminate.
Qed.

Lemma cc_criteria (c : string) :
  str_in c ["IAE"; "ISE"; "ITAE"]%string = true ->
  c = "IAE"%string \/ c = "ISE"%string \/ c = "ITAE"%string.
Proof.
  unfold str_in. cbn [existsb]. rewrite !orb_true_iff, !String.eqb_eq.
  intuition discriminate.
Qed.

(** Once the four entry checks pass, Ziegler-Nichols is its computation part. *)
Lemma zn_checks_pass (K L T : Q) (c : string) :
  0 < K -> 0 <= L -> 0 < T -> str_in c ["P"; "PI"; "PID"]%string = true ->
  sintonia_pid_ziegler_nichols K L T c =
  ((if Qlt_bool 0.5 (L / T) then zn_warning L T else []),
   if String.eqb c "P" then
     bind (fdiv T (L * K)) (fun Kp => Ok (Fin Kp, PInf, Fin 0.0))
   else if String.eqb c "PI" then
     bind (fdiv (0.9 * T) (L * K)) (fun Kp => Ok (Fin Kp, Fin (3.33 * L), Fin 0.0))
   else
     bind (fdiv (1.2 * T) (L * K)) (fun Kp => Ok (Fin Kp, Fin (2.0 * L), Fin (0.5 * L)))).
Proof.
  intros HK HL HT Hc. unfold sintonia_pid_ziegler_nichols.
  rewrite (Qle_bool_gt K 0 HK), (Qlt_bool_ge L 0 HL), (Qle_bool_gt T 0 HT), Hc.
  reflexivity.
Qed.

(** Ziegler-Nichols on a model with a positive dead time: the outcome is
    the table of the specification. *)
Lemma zn_formulas (K L T : Q) (c : string) :
  0 < K -> 0 < L -> 0 < T -> str_in c ["P"; "PI"; "PID"]%string = true ->
  exists p, snd (sintonia_pid_ziegler_nichols K L T c) = Ok p /\
            pid_eq p (spec_ziegler_nichols K L T c).
Proof.
  intros HK HL HT Hc.
  rewrite zn_checks_pass by (try assumption; apply Qlt_le_weak; assumption).
  pose proof (product_nonzero K L HK HL) as Hnz.
  unfold spec_ziegler_nichols. cbn [snd].
  destruct (zn_control_types c Hc) as [-> | [-> | ->]]; cbn [String.eqb Ascii.eqb Bool.eqb];
    rewrite fdiv_ok by exact Hnz; cbn [bind];
    eexists; (split; [reflexivity|]); cbn; repeat split; try reflexivity; field; exact Hnz.
Qed.

(** The literal case of the specification: K = 1, L = 2, T = 10, PID. *)
Lemma zn_literal_case :
  exists p, sintonia_pid_ziegler_nichols 1.0 2.0 10.0 "PID" = ([], Ok p) /\
            pid_eq p (Fin 6.00, Fin 4.00, Fin 1.00).
Proof.
  eexists. split; [vm_compute; reflexivity|].
  cbn. repeat split; reflexivity.
Qed.

(** With a zero dead time the divisor L * K is zero, whatever the gain. *)
Lemma zn_zero_dead_time (K T : Q) (c : string) :
  0 < K -> 0 < T -> str_in c ["P"; "PI"; "PID"]%string = true ->
  sintonia_pid_ziegler_nichols K 0 T c = ([], Raise ZeroDivisionError).
Proof.
  intros HK HT Hc.
  rewrite zn_checks_pass by (try assumption; apply Qle_refl).
  assert (Hr : Qlt_bool 0.5 (0 / T) = false).
  { apply Qlt_bool_ge. setoid_replace (0 / T) with 0 by (unfold Qdiv; ring). lra. }
  rewrite Hr.
  assert (Hz : 0 * K == 0) by ring.
  destruct (zn_control_types c Hc) as [-> | [-> | ->]]; cbn [String.eqb Ascii.eqb Bool.eqb];
    rewrite (fdiv_zero _ _ Hz); reflexivity.
Qed.

(** Once the five entry checks pass, Cohen-Coon is its computation part. *)
Lemma cc_checks_pass (K L T : Q) (crit c : string) :
  0 < K -> 0 <= L -> 0 < T ->
  str_in crit ["IAE"; "ISE"; "ITAE"]%string = true ->
  str_in c ["PI"; "PID"]%string = true ->
  sintonia_pid_cohen_coon K L T crit c =
  bind
    (if String.eqb crit "IAE" then
       if Qlt_bool (L / T) 0.3 then
         bind (fdiv (1.35 * T) (L * K)) (fun Kp => Ok (Kp, 2.5 * L, 0.37 * L))
       else
         bind (fdiv T (L * K)) (fun q =>
         bind (fdiv (L * (32.0 + 6.0 * (L / T))) (13.0 + 8.0 * (L / T))) (fun Ti =>
         bind (fdiv (4.0 * L) (11.0 + 2.0 * (L / T))) (fun Td =>
         Ok (q * (4.0 / 3.0 + (L / T) / 4.0), Ti, Td))))
     else if String.eqb crit "ISE" then
       bind (fdiv (1.495 * T) (L * K)) (fun Kp => Ok (Kp, 1.57 * L, 0.735 * L))
     else
       bind (fdiv (0.859 * T) (L * K)) (fun Kp => Ok (Kp, 0.674 * L, 0.134 * L)))
    (fun r => let '(Kp, Ti, Td) := r in
              Ok (Fin Kp, Fin Ti, Fin (if String.eqb c "PI" then 0.0 else Td))).
Proof.
  intros HK HL HT Hcrit Hc. unfold sintonia_pid_cohen_coon.
  rewrite (Qle_bool_gt K 0 HK), (Qlt_bool_ge L 0 HL), (Qle_bool_gt T 0 HT), Hcrit, Hc.
  reflexivity.
Qed.

(** Cohen-Coon on a model with a positive dead time: the gains are the
    table of the specification, with the derivative time forced to zero
    for a PI controller. *)
Lemma cc_formulas (K L T : Q) (crit c : string) :
  0 < K -> 0 < L -> 0 < T ->
  str_in crit ["IAE"; "ISE"; "ITAE"]%string = true ->
  str_in c ["PI"; "PID"]%string = true ->
  exists Kp Ti Td,
    sintonia_pid_cohen_coon K L T crit c = Ok (Fin Kp, Fin Ti, Fin Td) /\
    Kp == fst (fst (spec_cohen_coon K L T crit)) /\
    Ti == snd (fst (spec_cohen_coon K L T crit)) /\
    Td == (if String.eqb c "PI" then 0 else snd (spec_cohen_coon K L T crit)).
Proof.
  intros HK HL HT Hcrit Hc.
  rewrite cc_checks_pass by (try assumption; apply Qlt_le_weak; assumption).
  pose proof (product_nonzero K L HK HL) as Hnz.
  pose proof (ratio_positive L T HL HT) as Hr.
  unfold spec_cohen_coon.
  assert (HTd : forall x : Q,
             (if String.eqb c "PI" then 0.0 else x) == (if String.eqb c "PI" then 0 else x)).
  { intro x. destruct (String.eqb c "PI"); reflexivity. }
  destruct (cc_criteria crit Hcrit) as [-> | [-> | ->]]; cbn [String.eqb Ascii.eqb Bool.eqb].
  - destruct (Qlt_bool (L / T) 0.3) eqn:E.
    + rewrite fdiv_ok by exact Hnz. cbn [bind fst snd].
      do 3 eexists. split; [reflexivity|]. repeat split; try apply HTd; reflexivity.
    + set (r := L / T) in *.
      assert (H13 : ~ 13.0 + 8.0 * r == 0) by lra.
      assert (H11 : ~ 11.0 + 2.0 * r == 0) by lra.
      rewrite (fdiv_ok _ _ Hnz), (fdiv_ok _ _ H13), (fdiv_ok _ _ H11). cbn [bind fst snd].
      do 3 eexists. split; [reflexivity|]. split; [|split].
      * field; repeat split; lra.
      * field; repeat split; lra.
      * rewrite HTd. destruct (String.eqb c "PI"); [reflexivity|]. field; repeat split; lra.
  - rewrite fdiv_ok by exact Hnz. cbn [bind fst snd].
    do 3 eexists. split; [reflexivity|]. repeat split; try apply HTd; reflexivity.
  - rewrite fdiv_ok by exact Hnz. cbn [bind fst snd].
    do 3 eexists. split; [reflexivity|]. repeat split; try apply HTd; reflexivity.
Qed.

(** The literal case of the specification: K = 1, L = 2, T = 10, IAE, PID. *)
Lemma cc_literal_case :
  exists p, sintonia_pid_cohen_coon 1.0 2.0 10.0 "IAE" "PID" = Ok p /\
            pid_eq p (Fin 6.75, Fin 5.00, Fin 0.74).
Proof.
  eexists. split; [vm_compute; reflexivity|].
  cbn. repeat split; reflexivity.
Qed.

Lemma cc_zero_dead_time (K T : Q) (crit c : string) :
  0 < K -> 0 < T ->
  str_in crit ["IAE"; "ISE"; "ITAE"]%string = true ->
  str_in c ["PI"; "PID"]%string = true ->
  sintonia_pid_cohen_coon K 0 T crit c = Raise ZeroDivisionError.
Proof.
  intros HK HT Hcrit Hc.
  rewrite cc_checks_pass by (try assumption; apply Qle_refl).
  assert (Hr : Qlt_bool (0 / T) 0.3 = true).
  { apply Qlt_bool_lt. setoid_replace (0 / T) with 0 by (unfold Qdiv; ring). lra. }
  rewrite Hr.
  assert (Hz : 0 * K == 0) by ring.
  destruct (cc_criteria crit Hcrit) as [-> | [-> | ->]]; cbn [String.eqb Ascii.eqb Bool.eqb];
    rewrite (fdiv_zero _ _ Hz); reflexivity.
Qed.

(** C1. Ziegler-Nichols evaluated on the valid model K = 1, L = 0, T = 1:
    the model passes every entry check, the table of the specification
    asks for Kp = T/(L*K), and the call ends in Python's ZeroDivisionError
    for each of the three control types, without returning any gains. *)
Theorem zn_valid_model_zero_dead_time_raises :
  valid_model 1 0 1 /\
  sintonia_pid_ziegler_nichols 1 0 1 "P" = ([], Raise ZeroDivisionError) /\
  sintonia_pid_ziegler_nichols 1 0 1 "PI" = ([], Raise ZeroDivisionError) /\
  sintonia_pid_ziegler_nichols 1 0 1 "PID" = ([], Raise ZeroDivisionError).
Proof.
  split; [unfold valid_model; lra|].
  repeat split; apply zn_zero_dead_time; solve [lra | reflexivity].
Qed.

(** C2. Cohen-Coon evaluated on the valid model K = 1, L = 0, T = 1: the
    model and both selectors pass every entry check, and the call ends in
    Python's ZeroDivisionError for each criterion, for PID and for PI,
    without returning any gains (so not even the forced Td = 0 of PI). *)
Theorem cc_valid_model_zero_dead_time_raises :
  valid_model 1 0 1 /\
  sintonia_pid_cohen_coon 1 0 1 "IAE" "PID" = Raise ZeroDivisionError /\
  sintonia_pid_cohen_coon 1 0 1 "ISE" "PID" = Raise ZeroDivisionError /\
  sintonia_pid_cohen_coon 1 0 1 "ITAE" "PID" = Raise ZeroDivisionError /\
  sintonia_pid_cohen_coon 1 0 1 "IAE" "PI" = Raise ZeroDivisionError /\
  sintonia_pid_cohen_coon 1 0 1 "ISE" "PI" = Raise ZeroDivisionError /\
  sintonia_pid_cohen_coon 1 0 1 "ITAE" "PI" = Raise ZeroDivisionError.
Proof.
  split; [unfold valid_model; lra|].
  repeat split; apply cc_zero_dead_time; solve [lra | reflexivity].
Qed.

(** In exact arithmetic, where the product L*K of two positive numbers
    cannot vanish: for every model with K > 0, L >= 0, T > 0 and L/T > 0.5
    and every supported control type, Ziegler-Nichols prints its three
    warning lines and then returns the gains of the same table as for any
    other model.  On floats the product can underflow; see
    [Binary64Facts]. *)
Lemma zn_high_ratio_warns_and_returns (K L T : Q) (c : string) :
  0 < K -> 0 <= L -> 0 < T -> 0.5 < L / T ->
  str_in c ["P"; "PI"; "PID"]%string = true ->
  exists p, sintonia_pid_ziegler_nichols K L T c = (zn_warning L T, Ok p) /\
            pid_eq p (spec_ziegler_nichols K L T c).
Proof.
  intros HK HL HT Hr Hc.
  assert (HL' : 0 < L) by (apply (high_ratio_positive_L L T 0.5); [lra | assumption..]).
  destruct (zn_formulas K L T c HK HL' HT Hc) as [p [Hp Heq]].
  exists p. split; [|exact Heq].
  rewrite zn_checks_pass in * by assumption.
  rewrite (Qlt_bool_lt _ _ Hr). cbn [snd] in Hp. rewrite Hp. reflexivity.
Qed.

Lemma zn_high_ratio_witness :
  exists p, sintonia_pid_ziegler_nichols 1 6 10 "PID" = (zn_warning 6 10, Ok p) /\
            pid_eq p (spec_ziegler_nichols 1 6 10 "PID").
Proof.
  apply (zn_high_ratio_warns_and_returns 1 6 10 "PID");
    solve [reflexivity | unfold Qlt, Qle, Qdiv; simpl; lia].
Defined.

(** C4. Both tuning operations check the model first and the selectors
    next, and return no gains when a check fails: K <= 0, L < 0 or T <= 0
    gives an error of kind InvalidModel; on a valid model an unsupported
    criterion gives InvalidCriterion and an unsupported control type gives
    InvalidControlType; and an unsupported selector never lets a call
    succeed. *)
Theorem tuning_entry_validation (K L T : Q) (crit c : string) :
  ((K <= 0 \/ L < 0 \/ T <= 0) ->
     (exists e, sintonia_pid_ziegler_nichols K L T c = ([], Raise e) /\
                kind_of e = InvalidModel) /\
     (exists e, sintonia_pid_cohen_coon K L T crit c = Raise e /\
                kind_of e = InvalidModel)) /\
  (valid_model K L T ->
     (str_in c ["P"; "PI"; "PID"]%string = false ->
        sintonia_pid_ziegler_nichols K L T c =
          ([], Raise (TuningError (bad_control_type c)))) /\
     (str_in crit ["IAE"; "ISE"; "ITAE"]%string = false ->
        sintonia_pid_cohen_coon K L T crit c = Raise (TuningError (bad_criterion crit))) /\
     (str_in crit ["IAE"; "ISE"; "ITAE"]%string = true ->
      str_in c ["PI"; "PID"]%string = false ->
        sintonia_pid_cohen_coon K L T crit c = Raise (TuningError (bad_control_type c)))) /\
  (str_in c ["P"; "PI"; "PID"]%string = false ->
     exists e, sintonia_pid_ziegler_nichols K L T c = ([], Raise (TuningError e))) /\
  (str_in crit ["IAE"; "ISE"; "ITAE"]%string = false \/ str_in c ["PI"; "PID"]%string = false ->
     exists e, sintonia_pid_cohen_coon K L T crit c = Raise (TuningError e)).
Proof.
  unfold sintonia_pid_ziegler_nichols, sintonia_pid_cohen_coon, valid_model.
  destruct (Qle_bool K 0) eqn:EK; [|destruct (Qlt_bool L 0) eqn:EL;
    [|destruct (Qle_bool T 0) eqn:ET]]; order_facts.
  - repeat split; intros; try lra; eauto.
  - repeat split; intros; try lra; eauto.
  - repeat split; intros; try lra; eauto.
  - split; [intro; lra|]. split; [intros _|split].
    + split; [|split].
      * intros ->. reflexivity.
      * intros ->. reflexivity.
      * intros -> ->. reflexivity.
    + intros ->. cbn [negb]. eauto.
    + intros [-> | ->]; cbn [negb]; [eauto|].
      destruct (str_in crit _); cbn [negb]; eauto.
Qed.

Lemma tuning_entry_validation_witness :
  (exists e, sintonia_pid_ziegler_nichols (-1) 1 5 "PID" = ([], Raise e) /\
             kind_of e = InvalidModel) /\
  sintonia_pid_ziegler_nichols 1 1 5 "PD" = ([], Raise (TuningError (bad_control_type "PD"))) /\
  sintonia_pid_cohen_coon 1 1 5 "INVALID" "PID" = Raise (TuningError (bad_criterion "INVALID")) /\
  sintonia_pid_cohen_coon 1 1 5 "IAE" "P" = Raise (TuningError (bad_control_type "P")).
Proof.
  assert (V : valid_model 1 1 5) by (unfold valid_model, Qlt, Qle; simpl; lia).
  split; [|split; [|split]].
  - apply (tuning_entry_validation (-1) 1 5 "IAE" "PID").
    left. unfold Qle. simpl. lia.
  - apply (tuning_entry_validation 1 1 5 "IAE" "PD"); [exact V | reflexivity].
  - apply (tuning_entry_validation 1 1 5 "INVALID" "PID"); [exact V | reflexivity].
  - apply (tuning_entry_validation 1 1 5 "IAE" "P"); [exact V | reflexivity | reflexivity].
Defined.

End TuningFacts.

(** ** Facts about the response metrics *)

Module MetricsFacts.
Import Metrics.

Lemma any_not_finite_map_Fin (l : list Q) : any_not_finite (map Fin l) = false.
Proof.
  unfold any_not_finite. induction l as [|x l IH]; [reflexivity|].
  cbn. exact IH.
Qed.

Lemma values_map_Fin (l : list Q) : values (map Fin l) = l.
Proof.
  unfold values. induction l as [|x l IH]; [reflexivity|].
  cbn. f_equal. exact IH.
Qed.

Lemma any_not_finite_true_iff (a : list float) :
  any_not_finite a = true <-> exists x, In x a /\ isfinite x = false.
Proof.
  unfold any_not_finite. rewrite existsb_exists.
  split; intros [x [Hin Hx]]; exists x; (split; [exact Hin|]).
  - apply negb_true_iff. exact Hx.
  - apply negb_true_iff. exact Hx.
Qed.

(** Reading a mapped list at an index inside it. *)
Lemma nth_map_inside {A B} (f : A -> B) (l : list A) (j : nat) (d : A) (d' : B) :
  (j < length l)%nat -> nth j (map f l) d' = f (nth j l d).
Proof.
  intro H. rewrite (nth_indep (map f l) d' (f d)) by (rewrite length_map; exact H).
  apply map_nth.
Qed.

(** *** [np.where] *)

Lemma where_from_all_false (k : nat) (m : list bool) :
  (forall j, (j < length m)%nat -> nth j m false = false) -> where_from k m = [].
Proof.
  revert k. induction m as [|b r IH]; intros k H; [reflexivity|].
  assert (Hb : b = false) by (apply (H 0%nat); cbn; lia).
  subst b. cbn [where_from].
  apply IH. intros j Hj. apply (H (S j)). cbn. lia.
Qed.

Lemma last_cons_nonempty {A} (a : A) (l : list A) (d : A) :
  l <> [] -> last (a :: l) d = last l d.
Proof. destruct l; [congruence | reflexivity]. Qed.

(** The last index [np.where] reports is the last true entry. *)
Lemma where_from_last (k : nat) (m : list bool) (i d : nat) :
  (i < length m)%nat -> nth i m false = true ->
  (forall j, (i < j < length m)%nat -> nth j m false = false) ->
  where_from k m <> [] /\ last (where_from k m) d = (k + i)%nat.
Proof.
  revert k i. induction m as [|b r IH]; intros k i Hi Hnth Hafter; [cbn in Hi; lia|].
  destruct i as [|i].
  - cbn in Hnth. subst b. cbn [where_from].
    rewrite (where_from_all_false (S k) r).
    + split; [discriminate|]. cbn. f_equal. lia.
    + intros j Hj. apply (Hafter (S j)). cbn. lia.
  - cbn in Hnth. cbn in Hi.
    destruct (IH (S k) i) as [Hne Hlast]; [lia | exact Hnth | |].
    + intros j Hj. apply (Hafter (S j)). cbn. lia.
    + cbn [where_from]. destruct b.
      * split; [discriminate|]. rewrite last_cons_nonempty by exact Hne.
        rewrite Hlast. lia.
      * split; [exact Hne|]. rewrite Hlast. lia.
Qed.

Lemma np_any_false_iff (m : list bool) :
  np_any m = false <-> forall j, (j < length m)%nat -> nth j m false = false.
Proof.
  unfold np_any. induction m as [|b r IH]; cbn.
  - split; [intros _ j Hj; lia | reflexivity].
  - rewrite orb_false_iff, IH. split.
    + intros [Hb Hr] [|j] Hj; [exact Hb | apply Hr; lia].
    + intro H. split; [apply (H 0%nat); lia | intros j Hj; apply (H (S j)); lia].
Qed.

(** *** The settling time *)

(** On a trace that passes the entry checks the call returns its dictionary. *)
Lemma metrics_checks_pass (t y : list Q) (yref tolerance : Q) :
  valid_trace t y yref tolerance ->
  calcular_metricas_respuesta (map Fin t) (map Fin y) yref tolerance =
  Ok [("ts", ts_of t y yref tolerance);
      ("Mp", (np_max y - yref) / Qabs yref * 100.0);
      ("ess", yref - last y 0);
      ("ess_percent", ((yref - last y 0) / yref) * 100.0);
      ("y_max", np_max y);
      ("y_final", last y 0);
      ("settling_band", tolerance * Qabs yref)]%string.
Proof.
  intros (Hlen & Heq & Hyref & Htol0 & Htol1).
  unfold calcular_metricas_respuesta.
  rewrite !length_map, !any_not_finite_map_Fin, !values_map_Fin.
  replace (length t <? 10)%nat with false by (symmetry; apply Nat.ltb_ge; exact Hlen).
  replace (length t =? length y)%nat with true by (symmetry; apply Nat.eqb_eq; exact Heq).
  cbn [negb].
  replace (Qeq_bool yref 0.0) with false.
  2:{ symmetry. apply not_true_iff_false. intro E. apply Qeq_bool_iff in E.
      apply Hyref. rewrite E. reflexivity. }
  rewrite (TuningFacts.Qle_bool_gt tolerance 0 Htol0), (TuningFacts.Qle_bool_gt 1 tolerance Htol1).
  reflexivity.
Qed.

Lemma finite_array_is_map_Fin (a : list float) :
  any_not_finite a = false -> a = map Fin (values a).
Proof.
  unfold any_not_finite, values. induction a as [|x a IH]; [reflexivity|].
  cbn [existsb map]. intro H. apply orb_false_iff in H. destruct H as [Hx Ha].
  destruct x; try discriminate Hx. f_equal. apply IH. exact Ha.
Qed.

(** Conversely, every input the call accepts is a valid trace of finite
    samples, so the statements below on [map Fin t] and [map Fin y] cover
    every trace passing validation. *)
Lemma accepted_trace_is_valid (t y : list float) (yref tolerance : Q) (m : dict) :
  calcular_metricas_respuesta t y yref tolerance = Ok m ->
  t = map Fin (values t) /\ y = map Fin (values y) /\
  valid_trace (values t) (values y) yref tolerance.
Proof.
  unfold calcular_metricas_respuesta, valid_trace, values. rewrite !length_map.
  destruct (length t <? 10)%nat eqn:E10; [discriminate|].
  destruct (length t =? length y)%nat eqn:Elen; [|discriminate]. cbn [negb].
  destruct (any_not_finite t) eqn:Et; [discriminate|].
  destruct (any_not_finite y) eqn:Ey; [discriminate|].
  destruct (Qeq_bool yref 0.0) eqn:Eref; [discriminate|].
  destruct (Qle_bool tolerance 0) eqn:E0; [discriminate|].
  destruct (Qle_bool 1 tolerance) eqn:E1; [discriminate|].
  intros _. apply Nat.ltb_ge in E10. apply Nat.eqb_eq in Elen.
  apply Qeq_bool_neq in Eref. apply Qle_bool_false_iff in E0, E1.
  split; [apply finite_array_is_map_Fin; exact Et|].
  split; [apply finite_array_is_map_Fin; exact Ey|].
  repeat split; try assumption.
  intro Hz. apply Eref. rewrite Hz. reflexivity.
Qed.

Lemma within_band_length (y : list Q) (yref tolerance : Q) :
  length (within_band y yref tolerance) = length y.
Proof. unfold within_band. rewrite !length_map. reflexivity. Qed.

Lemma within_band_nth (y : list Q) (yref tolerance : Q) (j : nat) :
  (j < length y)%nat ->
  nth j (within_band y yref tolerance) false = true <->
  in_band yref tolerance (nth j y 0).
Proof.
  intro Hj. unfold within_band, in_band. rewrite map_map.
  rewrite (nth_map_inside _ y j 0 false Hj). apply Qle_bool_iff.
Qed.

Lemma within_band_nth_false (y : list Q) (yref tolerance : Q) (j : nat) :
  (j < length y)%nat ->
  nth j (within_band y yref tolerance) false = false <->
  ~ in_band yref tolerance (nth j y 0).
Proof.
  intro Hj. rewrite <- (within_band_nth y yref tolerance j Hj).
  symmetry. apply not_true_iff_false.
Qed.

Lemma last_is_nth {A} (l : list A) (d : A) :
  last l d = nth (length l - 1) l d.
Proof.
  induction l as [|a l IH]; [reflexivity|].
  destruct l as [|b l]; [reflexivity|].
  change (last (a :: b :: l) d) with (last (b :: l) d). rewrite IH.
  cbn [length nth]. replace (S (S (length l)) - 1)%nat with (S (length l - 0)) by lia.
  replace (S (length l) - 1)%nat with (length l - 0)%nat by lia. reflexivity.
Qed.

(** A sample outside the band followed only by samples inside it. *)
Lemma ts_of_after_last_excursion (t y : list Q) (yref tolerance : Q) (i : nat) :
  length t = length y -> (i + 1 < length y)%nat ->
  ~ in_band yref tolerance (nth i y 0) ->
  (forall j, (i < j < length y)%nat -> in_band yref tolerance (nth j y 0)) ->
  ts_of t y yref tolerance = nth (i + 1) t 0.
Proof.
  intros Hlen Hi Hout Hin. unfold ts_of.
  set (w := within_band y yref tolerance).
  assert (Hw : length w = length y) by apply within_band_length.
  assert (Hany : np_any w = true).
  { apply not_false_iff_true. intro E.
    pose proof (proj1 (np_any_false_iff w) E (i + 1)%nat) as F.
    rewrite Hw in F. specialize (F Hi).
    apply within_band_nth_false in F; [|exact Hi]. apply F, Hin. lia. }
  rewrite Hany. cbn [negb].
  destruct (where_from_last 0 (map negb w) i 0%nat) as [Hne Hlast].
  - rewrite length_map, Hw. lia.
  - rewrite (nth_map_inside negb w i false false) by (rewrite Hw; lia).
    apply negb_true_iff. apply within_band_nth_false; [lia | exact Hout].
  - intros j Hj. rewrite length_map, Hw in Hj.
    rewrite (nth_map_inside negb w j false false) by (rewrite Hw; lia).
    apply negb_false_iff. apply within_band_nth; [lia | apply Hin; lia].
  - unfold np_where. rewrite Hlast.
    destruct (where_from 0 (map negb w)) as [|a r] eqn:E; [congruence|].
    cbn [length Nat.eqb]. cbn [Nat.add].
    replace (i + 1 <? length t)%nat with true by (symmetry; apply Nat.ltb_lt; lia).
    reflexivity.
Qed.

(** Every sample inside the band. *)
Lemma ts_of_always_inside (t y : list Q) (yref tolerance : Q) :
  (0 < length y)%nat ->
  (forall j, (j < length y)%nat -> in_band yref tolerance (nth j y 0)) ->
  ts_of t y yref tolerance = nth 0 t 0.
Proof.
  intros Hpos Hin. unfold ts_of.
  set (w := within_band y yref tolerance).
  assert (Hw : length w = length y) by apply within_band_length.
  assert (Hany : np_any w = true).
  { apply not_false_iff_true. intro E.
    pose proof (proj1 (np_any_false_iff w) E 0%nat) as F.
    rewrite Hw in F. specialize (F Hpos).
    apply within_band_nth_false in F; [|exact Hpos]. apply F, Hin. exact Hpos. }
  rewrite Hany. cbn [negb]. unfold np_where.
  rewrite where_from_all_false; [reflexivity|].
  intros j Hj. rewrite length_map, Hw in Hj.
  rewrite (nth_map_inside negb w j false false) by (rewrite Hw; lia).
  apply negb_false_iff. apply within_band_nth; [lia | apply Hin; lia].
Qed.

(** No sample inside the band. *)
Lemma ts_of_never_inside (t y : list Q) (yref tolerance : Q) :
  (forall j, (j < length y)%nat -> ~ in_band yref tolerance (nth j y 0)) ->
  ts_of t y yref tolerance = last t 0.
Proof.
  intro Hout. unfold ts_of.
  replace (np_any (within_band y yref tolerance)) with false; [reflexivity|].
  symmetry. apply np_any_false_iff. intros j Hj.
  rewrite within_band_length in Hj.
  apply within_band_nth_false; [exact Hj | apply Hout; exact Hj].
Qed.

(** The final sample outside the band. *)
Lemma ts_of_ends_outside (t y : list Q) (yref tolerance : Q) :
  length t = length y -> (0 < length y)%nat ->
  ~ in_band yref tolerance (last y 0) ->
  ts_of t y yref tolerance = last t 0.
Proof.
  intros Hlen Hpos Hout. unfold ts_of.
  set (w := within_band y yref tolerance).
  assert (Hw : length w = length y) by apply within_band_length.
  destruct (np_any w); [|reflexivity]. cbn [negb].
  rewrite last_is_nth in Hout.
  destruct (where_from_last 0 (map negb w) (length y - 1) 0%nat) as [Hne Hlast].
  - rewrite length_map, Hw. lia.
  - rewrite (nth_map_inside negb w _ false false) by (rewrite Hw; lia).
    apply negb_true_iff. apply within_band_nth_false; [lia | exact Hout].
  - intros j Hj. rewrite length_map, Hw in Hj. lia.
  - unfold np_where. rewrite Hlast.
    destruct (where_from 0 (map negb w)) as [|a r] eqn:E; [congruence|].
    cbn [length Nat.eqb]. cbn [Nat.add].
    replace (length y - 1 + 1 <? length t)%nat with false
      by (symmetry; apply Nat.ltb_ge; lia).
    reflexivity.
Qed.

(** C5. For every trace passing validation the call returns a dictionary
    whose settling time "ts" is the time of the sample right after the
    last sample outside the tolerance band; it is the first time when every
    sample is inside the band, and the last time when no sample is inside
    the band (more generally, when the trace ends outside the band). *)
Theorem settling_time_after_last_excursion (t y : list Q) (yref tolerance : Q) :
  valid_trace t y yref tolerance ->
  exists m ts,
    calcular_metricas_respuesta (map Fin t) (map Fin y) yref tolerance = Ok m /\
    dict_get "ts" m = Some ts /\
    (forall i, (i + 1 < length y)%nat ->
       ~ in_band yref tolerance (nth i y 0) ->
       (forall j, (i < j < length y)%nat -> in_band yref tolerance (nth j y 0)) ->
       ts = nth (i + 1) t 0) /\
    ((forall j, (j < length y)%nat -> in_band yref tolerance (nth j y 0)) ->
       ts = nth 0 t 0) /\
    ((forall j, (j < length y)%nat -> ~ in_band yref tolerance (nth j y 0)) ->
       ts = last t 0) /\
    (~ in_band yref tolerance (last y 0) -> ts = last t 0).
Proof.
  intro V. pose proof V as (Hlen & Heq & _).
  rewrite (metrics_checks_pass t y yref tolerance V).
  eexists. exists (ts_of t y yref tolerance).
  split; [reflexivity|]. split; [reflexivity|].
  split; [|split; [|split]].
  - intros i Hi Hout Hin. apply ts_of_after_last_excursion; assumption.
  - apply ts_of_always_inside. lia.
  - apply ts_of_never_inside.
  - apply ts_of_ends_outside; [exact Heq | lia].
Qed.

Lemma example_trace_valid :
  valid_trace Examples.t_example Examples.y_example 1 0.05.
Proof.
  unfold valid_trace. cbn [length Examples.t_example Examples.y_example].
  repeat split; try lia; try (unfold Qlt; simpl; lia).
  intro E. discriminate E.
Qed.

Lemma settling_time_witness :
  exists m ts,
    calcular_metricas_respuesta (map Fin Examples.t_example) (map Fin Examples.y_example)
      1 0.05 = Ok m /\
    dict_get "ts" m = Some ts /\ ts = 6.
Proof.
  destruct (settling_time_after_last_excursion _ _ _ _ example_trace_valid)
    as (m & ts & Hm & Hts & Hafter & _).
  exists m, ts. split; [exact Hm|]. split; [exact Hts|].
  apply (Hafter 5%nat).
  - cbn. lia.
  - unfold in_band. cbn. unfold Qle. simpl. lia.
  - intros j Hj. cbn [length Examples.y_example] in Hj.
    assert (Hc : j = 6%nat \/ j = 7%nat \/ j = 8%nat \/ j = 9%nat) by lia.
    destruct Hc as [-> | [-> | [-> | ->]]]; unfold in_band; cbn; unfold Qle; simpl; lia.
Defined.

(** *** The maximum *)

Lemma Qmax_cases (x y : Q) : (Qmax x y = x /\ y <= x) \/ (Qmax x y = y /\ x <= y).
Proof.
  unfold Qmax, GenericMinMax.gmax.
  destruct (x ?= y) eqn:E.
  - left. split; [reflexivity|]. apply Qeq_alt in E. rewrite E. apply Qle_refl.
  - right. split; [reflexivity|]. apply Qlt_alt in E. apply Qlt_le_weak. exact E.
  - left. split; [reflexivity|]. apply Qgt_alt in E. apply Qlt_le_weak. exact E.
Qed.

Lemma fold_max_spec (r : list Q) (x : Q) :
  In (fold_left Qmax r x) (x :: r) /\
  forall v, In v (x :: r) -> v <= fold_left Qmax r x.
Proof.
  revert x. induction r as [|a r IH]; intro x.
  - cbn. split; [left; reflexivity|]. intros v [<- | []]. apply Qle_refl.
  - cbn [fold_left]. destruct (IH (Qmax x a)) as [Hin Hub]. split.
    + destruct Hin as [E | Hin].
      * rewrite <- E.
        destruct (Qmax_cases x a) as [[Hm _] | [Hm _]]; rewrite Hm.
        -- left. reflexivity.
        -- right. left. reflexivity.
      * right. right. exact Hin.
    + intros v Hv.
      assert (Hx : x <= fold_left Qmax r (Qmax x a)).
      { apply Qle_trans with (Qmax x a); [|apply Hub; left; reflexivity].
        destruct (Qmax_cases x a) as [[Hm Hle] | [Hm Hle]]; rewrite Hm;
          [apply Qle_refl | exact Hle]. }
      assert (Ha : a <= fold_left Qmax r (Qmax x a)).
      { apply Qle_trans with (Qmax x a); [|apply Hub; left; reflexivity].
        destruct (Qmax_cases x a) as [[Hm Hle] | [Hm Hle]]; rewrite Hm;
          [exact Hle | apply Qle_refl]. }
      destruct Hv as [<- | [<- | Hv]]; [exact Hx | exact Ha |].
      apply Hub. right. exact Hv.
Qed.

(** [np.max] of a non-empty array is one of its entries and bounds them all. *)
Lemma np_max_spec (a : list Q) :
  a <> [] -> In (np_max a) a /\ forall v, In v a -> v <= np_max a.
Proof.
  destruct a as [|x r]; [congruence|]. intros _. apply fold_max_spec.
Qed.

(** C6, as stated, fails: on the example trace, which passes validation,
    the returned dictionary has no entry "rise_time" and no entry
    "peak_time". *)
Lemma metrics_have_no_rise_time_nor_peak_time :
  exists m,
    calcular_metricas_respuesta (map Fin Examples.t_example) (map Fin Examples.y_example)
      1 0.05 = Ok m /\
    dict_get "rise_time" m = None /\ dict_get "peak_time" m = None /\
    dict_get "peak_value" m = None.
Proof.
  eexists. split; [vm_compute; reflexivity|]. repeat split.
Qed.

(** C6, amended.  For every trace passing validation the call returns a
    dictionary with exactly the keys ts, Mp, ess, ess_percent, y_max,
    y_final, settling_band; its "y_max" is the maximum of the output (an
    output sample that no sample exceeds); it holds no rise time and no
    peak time. *)
Theorem metrics_report_peak_value_only (t y : list Q) (yref tolerance : Q) :
  valid_trace t y yref tolerance ->
  exists m y_max,
    calcular_metricas_respuesta (map Fin t) (map Fin y) yref tolerance = Ok m /\
    dict_keys m =
      ["ts"; "Mp"; "ess"; "ess_percent"; "y_max"; "y_final"; "settling_band"]%string /\
    dict_get "y_max" m = Some y_max /\
    In y_max y /\ (forall v, In v y -> v <= y_max) /\
    dict_get "rise_time" m = None /\ dict_get "peak_time" m = None.
Proof.
  intro V. pose proof V as (Hlen & Heq & _).
  rewrite (metrics_checks_pass t y yref tolerance V).
  eexists. exists (np_max y).
  split; [reflexivity|]. split; [reflexivity|]. split; [reflexivity|].
  assert (Hne : y <> []) by (intros ->; cbn in Heq; lia).
  destruct (np_max_spec y Hne) as [Hin Hub].
  split; [exact Hin|]. split; [exact Hub|]. split; reflexivity.
Qed.

Lemma metrics_report_peak_value_witness :
  exists m,
    calcular_metricas_respuesta (map Fin Examples.t_example) (map Fin Examples.y_example)
      1 0.05 = Ok m /\
    dict_get "y_max" m = Some 1.2 /\ dict_get "rise_time" m = None.
Proof.
  destruct (metrics_report_peak_value_only _ _ _ _ example_trace_valid)
    as (m & y_max & Hm & _ & Hmax & _ & _ & Hrise & _).
  exists m. split; [exact Hm|]. split; [|exact Hrise].
  rewrite (metrics_checks_pass _ _ _ _ example_trace_valid) in Hm.
  injection Hm as <-. reflexivity.
Defined.

(** *** The entry checks *)

(** C7. The call raises its error, returning no metrics, exactly when the
    lengths of time and output differ, or there are fewer than 10 samples,
    or time or output holds a non-finite value, or the reference is zero,
    or the tolerance is outside the open interval (0, 1); in every other
    case it returns a dictionary. *)
Theorem metrics_fail_exactly_on_rejected_trace
    (t y : list float) (yref tolerance : Q) :
  ((exists msg, calcular_metricas_respuesta t y yref tolerance = Raise (MetricaError msg))
   <-> rejected_trace t y yref tolerance) /\
  ((exists m, calcular_metricas_respuesta t y yref tolerance = Ok m)
   <-> ~ rejected_trace t y yref tolerance).
Proof.
  unfold calcular_metricas_respuesta, rejected_trace.
  destruct (length t <? 10)%nat eqn:E10.
  { apply Nat.ltb_lt in E10. split; split.
    - intros _. right. left. exact E10.
    - intros _. eauto.
    - intros [m Hm]. discriminate Hm.
    - intro H. exfalso. apply H. right. left. exact E10. }
  apply Nat.ltb_ge in E10.
  destruct (length t =? length y)%nat eqn:Elen; cbn [negb].
  2:{ apply Nat.eqb_neq in Elen. split; split.
    - intros _. left. exact Elen.
    - intros _. eauto.
    - intros [m Hm]. discriminate Hm.
    - intro H. exfalso. apply H. left. exact Elen. }
  apply Nat.eqb_eq in Elen.
  destruct (any_not_finite t) eqn:Et.
  { apply any_not_finite_true_iff in Et. split; split.
    - intros _. right. right. left. exact Et.
    - intros _. eauto.
    - intros [m Hm]. discriminate Hm.
    - intro H. exfalso. apply H. right. right. left. exact Et. }
  destruct (any_not_finite y) eqn:Ey.
  { apply any_not_finite_true_iff in Ey. split; split.
    - intros _. right. right. right. left. exact Ey.
    - intros _. eauto.
    - intros [m Hm]. discriminate Hm.
    - intro H. exfalso. apply H. right. right. right. left. exact Ey. }
  apply not_true_iff_false in Et, Ey.
  rewrite any_not_finite_true_iff in Et, Ey.
  destruct (Qeq_bool yref 0.0) eqn:Eref.
  { apply Qeq_bool_iff in Eref.
    assert (Hz : yref == 0) by (rewrite Eref; reflexivity).
    split; split.
    - intros _. do 4 right. left. exact Hz.
    - intros _. eauto.
    - intros [m Hm]. discriminate Hm.
    - intro H. exfalso. apply H. do 4 right. left. exact Hz. }
  apply Qeq_bool_neq in Eref.
  assert (Hnz : ~ yref == 0) by (intro Hz; apply Eref; rewrite Hz; reflexivity).
  destruct (Qle_bool tolerance 0 || Qle_bool 1 tolerance) eqn:Etol.
  { apply orb_true_iff in Etol. rewrite !Qle_bool_iff in Etol.
    split; split.
    - intros _. do 5 right. exact Etol.
    - intros _. eauto.
    - intros [m Hm]. discriminate Hm.
    - intro H. exfalso. apply H. do 5 right. exact Etol. }
  apply orb_false_iff in Etol. destruct Etol as [Et0 Et1].
  apply Qle_bool_false_iff in Et0, Et1.
  assert (Hno : ~ (length t <> length y \/ (length t < 10)%nat \/
                   (exists x, In x t /\ isfinite x = false) \/
                   (exists x, In x y /\ isfinite x = false) \/
                   yref == 0 \/ tolerance <= 0 \/ 1 <= tolerance)).
  { intros [H | [H | [H | [H | [H | [H | H]]]]]];
      try contradiction; try lia; try lra. }
  split; split.
  - intros [msg Hm]. discriminate Hm.
  - intro H. contradiction.
  - intros _. exact Hno.
  - intros _. eauto.
Qed.

Lemma metrics_fail_witness :
  (exists msg,
     calcular_metricas_respuesta (map Fin Examples.t_example) (map Fin Examples.y_example)
       0 0.05 = Raise (MetricaError msg)) /\
  (exists m,
     calcular_metricas_respuesta (map Fin Examples.t_example) (map Fin Examples.y_example)
       1 0.05 = Ok m).
Proof.
  split.
  - apply (metrics_fail_exactly_on_rejected_trace
             (map Fin Examples.t_example) (map Fin Examples.y_example) 0 0.05).
    do 4 right. left. reflexivity.
  - apply (metrics_fail_exactly_on_rejected_trace
             (map Fin Examples.t_example) (map Fin Examples.y_example) 1 0.05).
    intros [H | [H | [[x [Hx Hf]] | [[x [Hx Hf]] | [H | [H | H]]]]]].
    + apply H. reflexivity.
    + cbn in H. lia.
    + cbn in Hx. repeat (destruct Hx as [<- | Hx]; [discriminate Hf|]). exact Hx.
    + cbn in Hx. repeat (destruct Hx as [<- | Hx]; [discriminate Hf|]). exact Hx.
    + discriminate H.
    + unfold Qle in H. simpl in H. lia.
    + unfold Qle in H. simpl in H. lia.
Defined.

End MetricsFacts.

(** ** Facts about stability and the open-loop simulation *)

Module StabilityFacts.
Import TransferFunction OpenLoop.

Lemma np_all_map_iff {A} (f : A -> bool) (l : list A) :
  np_all (map f l) = true <-> forall x, In x l -> f x = true.
Proof.
  unfold np_all. rewrite forallb_forall. split.
  - intros H x Hx. apply (H (f x)). apply in_map. exact Hx.
  - intros H b Hb. apply in_map_iff in Hb. destruct Hb as [x [<- Hx]]. apply H. exact Hx.
Qed.

(** Stability is the test of every real part against minus the tolerance. *)
Lemma is_stable_iff (tf : TransferFunction) (tolerance : Q) :
  is_stable tf tolerance = true <->
  forall p, In p (get_poles tf) -> re p < - tolerance.
Proof.
  unfold is_stable, np_real. rewrite map_map, np_all_map_iff.
  split; intros H p Hp; apply Qlt_bool_iff, H; exact Hp.
Qed.

(** A system is reported unstable exactly when some pole is not strictly
    to the left of minus the tolerance. *)
Lemma is_unstable_iff (tf : TransferFunction) (tolerance : Q) :
  is_stable tf tolerance = false <->
  exists p, In p (get_poles tf) /\ - tolerance <= re p.
Proof.
  unfold is_stable, np_real, get_poles. rewrite map_map. unfold np_all.
  induction (poles tf) as [|q l IH].
  - cbn. split; [discriminate | intros [p [[] _]]].
  - cbn [map forallb]. rewrite andb_false_iff, IH. split.
    + intros [H | [p [Hp Hle]]].
      * exists q. split; [left; reflexivity|]. apply Qlt_bool_false_iff. exact H.
      * exists p. split; [right; exact Hp | exact Hle].
    + intros [p [[<- | Hp] Hle]].
      * left. apply Qlt_bool_false_iff. exact Hle.
      * right. exists p. split; assumption.
Qed.

Lemma example_poles_are_roots :
  poles_are_roots tf_stable /\ poles_are_roots tf_unstable.
Proof.
  split; (split; [reflexivity|]); repeat constructor; reflexivity.
Qed.

(** C8. For every transfer function and tolerance, [is_stable] answers
    true exactly when every pole has a real part strictly below minus the
    tolerance; 1/(s+1), whose only pole is -1, is stable and 1/(s-1),
    whose only pole is +1, is not, under the default tolerance 1e-10. *)
Theorem is_stable_iff_poles_strictly_left :
  (forall tf tolerance,
     is_stable tf tolerance = true <->
     forall p, In p (get_poles tf) -> re p < - tolerance) /\
  poles_are_roots tf_stable /\
  is_stable tf_stable default_tolerance = true /\
  poles_are_roots tf_unstable /\
  is_stable tf_unstable default_tolerance = false.
Proof.
  split; [exact is_stable_iff|].
  destruct example_poles_are_roots as [Hs Hu].
  repeat split; solve [apply Hs | apply Hu].
Qed.

Lemma is_stable_witness : re (mkC (-1) 0) < - default_tolerance.
Proof.
  apply (proj1 (proj1 is_stable_iff_poles_strictly_left tf_stable default_tolerance)).
  - reflexivity.
  - left. reflexivity.
Defined.

(** C9. Whatever the integrator, the requested final time, the number of
    points and the magnitude: a transfer function that is not stable (some
    pole has a real part of at least minus the tolerance 1e-10) makes the
    simulation raise its unstable-system error, with no trace returned;
    a stable one never gets that error. *)
Theorem unstable_system_is_rejected
    (ct_step_response : TransferFunction -> list Q -> option (list Q * list Q))
    (tf : TransferFunction) (t_final : option Q) (num_points : Z) (input_magnitude : Q) :
  ((exists p, In p (get_poles tf) /\ - default_tolerance <= re p) ->
     simulate_step_response ct_step_response (Some tf) t_final num_points input_magnitude
       = Raise (SimulationError unstable_system)) /\
  ((forall p, In p (get_poles tf) -> re p < - default_tolerance) ->
     simulate_step_response ct_step_response (Some tf) t_final num_points input_magnitude
       <> Raise (SimulationError unstable_system)).
Proof.
  unfold simulate_step_response, simulation_time. split.
  - intro H. apply is_unstable_iff in H. rewrite H. reflexivity.
  - intro H. apply is_stable_iff in H. rewrite H. cbn [negb].
    destruct (num_points <? 10)%Z; [discriminate|].
    destruct (Qle_bool input_magnitude 0); [discriminate|].
    destruct t_final as [h|].
    + destruct (Qle_bool h 0); [discriminate|].
      destruct (ct_step_response _ _) as [[? ?]|]; discriminate.
    + destruct (ct_step_response _ _) as [[? ?]|]; discriminate.
Qed.

Lemma unstable_system_witness :
  simulate_step_response failing_step_response (Some tf_unstable) (Some 10) 1000 1
    = Raise (SimulationError unstable_system) /\
  simulate_step_response failing_step_response (Some tf_stable) (Some 10) 1000 1
    <> Raise (SimulationError unstable_system).
Proof.
  split.
  - apply (unstable_system_is_rejected failing_step_response tf_unstable (Some 10) 1000 1).
    exists (mkC 1 0). split; [left; reflexivity|].
    unfold Qle. simpl. lia.
  - apply (unstable_system_is_rejected failing_step_response tf_stable (Some 10) 1000 1).
    intros p [<- | []]. unfold Qlt. simpl. lia.
Defined.

(** *** The simulated horizon *)

(** The last point of a grid of at least two points is its stop value. *)
Lemma np_linspace_last (start stop : Q) (num : nat) :
  (2 <= num)%nat -> last (np_linspace start stop num) 0 == stop.
Proof.
  intro Hn. unfold np_linspace.
  rewrite MetricsFacts.last_is_nth, length_map, length_seq.
  rewrite (MetricsFacts.nth_map_inside _ (seq 0 num) (num - 1) 0%nat 0)
    by (rewrite length_seq; lia).
  rewrite seq_nth by lia. cbn [Nat.add].
  assert (Hnz : ~ inject_Z (Z.of_nat (num - 1)) == 0).
  { change 0 with (inject_Z 0). rewrite inject_Z_injective. lia. }
  field. exact Hnz.
Qed.

(** The slowest pole of a stable system is strictly negative. *)
Lemma stable_slowest_pole_negative (tf : TransferFunction) :
  is_stable tf default_tolerance = true -> poles tf <> [] ->
  np_max (np_real (poles tf)) < 0.
Proof.
  intros Hs Hne. rewrite is_stable_iff in Hs.
  destruct (MetricsFacts.np_max_spec (np_real (poles tf))) as [Hin _].
  { unfold np_real. destruct (poles tf); [congruence | discriminate]. }
  unfold np_real in Hin at 2. apply in_map_iff in Hin. destruct Hin as [p [Hp Hin]].
  rewrite <- Hp. specialize (Hs p Hin).
  apply Qlt_trans with (- default_tolerance); [exact Hs|].
  unfold default_tolerance, Qlt. simpl. lia.
Qed.

(** The estimate for a stable system: five time constants of the slowest
    pole, at most 1000; 10 when the system has no pole. *)
Lemma estimate_default_stable (tf : TransferFunction) :
  is_stable tf default_tolerance = true ->
  (poles tf <> [] ->
     estimate_default tf == Qmin (5 / Qabs (np_max (np_real (poles tf)))) 1000) /\
  (poles tf = [] -> estimate_default tf == 10).
Proof.
  intro Hs. unfold estimate_default, _estimate_settling_time. split.
  - intro Hne. pose proof (stable_slowest_pole_negative tf Hs Hne) as Hneg.
    destruct (poles tf) as [|p l] eqn:E; [congruence|].
    cbn [length Nat.eqb]. set (s := np_max (np_real (p :: l))) in *.
    rewrite (TuningFacts.Qle_bool_gt 0 s Hneg).
    apply Q.min_compat; [|reflexivity].
    rewrite (Qabs_neg s) by (apply Qlt_le_weak; exact Hneg).
    field. lra.
  - intros ->. reflexivity.
Qed.

(** C10, as stated, fails: for the stable system 1/(s+1) the settling
    estimate is min(5/|-1|, 1000) = 5, yet with a requested final time of 1
    the time vector handed to the integrator stops at 1. *)
Lemma requested_horizon_is_not_extended :
  is_stable tf_stable default_tolerance = true /\
  exists time,
    simulation_time (Some tf_stable) (Some 1) 10 1 = Ok (tf_stable, time) /\
    last time 0 == 1 /\
    ~ Qmin (5 / Qabs (np_max (np_real (poles tf_stable)))) 1000 <= last time 0.
Proof.
  split; [reflexivity|]. eexists. split; [vm_compute; reflexivity|].
  split; [reflexivity|]. vm_compute. intro H. apply H. reflexivity.
Qed.

(** C10, amended.  For every stable transfer function, with at least 10
    points and a positive magnitude: when no final time is requested, the
    time vector runs from 0 to the settling estimate, which is
    min(5/|Re(slowest pole)|, 1000), or 10 for a system without poles;
    when a positive final time is requested, the time vector runs from 0
    to exactly that time, whatever the estimate. *)
Theorem horizon_is_estimated_only_when_not_requested
    (tf : TransferFunction) (num_points : Z) (input_magnitude : Q) :
  is_stable tf default_tolerance = true ->
  (10 <= num_points)%Z -> 0 < input_magnitude ->
  (simulation_time (Some tf) None num_points input_magnitude =
     Ok (tf, np_linspace 0 (estimate_default tf) (Z.to_nat num_points)) /\
   last (np_linspace 0 (estimate_default tf) (Z.to_nat num_points)) 0
     == estimate_default tf /\
   (poles tf <> [] ->
      estimate_default tf == Qmin (5 / Qabs (np_max (np_real (poles tf)))) 1000) /\
   (poles tf = [] -> estimate_default tf == 10)) /\
  (forall t_final, 0 < t_final ->
     simulation_time (Some tf) (Some t_final) num_points input_magnitude =
       Ok (tf, np_linspace 0 t_final (Z.to_nat num_points)) /\
     last (np_linspace 0 t_final (Z.to_nat num_points)) 0 == t_final).
Proof.
  intros Hs Hn Hmag.
  assert (Hn2 : (2 <= Z.to_nat num_points)%nat) by lia.
  unfold simulation_time. rewrite Hs. cbn [negb].
  replace (num_points <? 10)%Z with false by (symmetry; apply Z.ltb_ge; exact Hn).
  rewrite (TuningFacts.Qle_bool_gt _ _ Hmag).
  destruct (estimate_default_stable tf Hs) as [He He0].
  split.
  - split; [reflexivity|]. split; [apply np_linspace_last; exact Hn2|].
    split; assumption.
  - intros h Hh. rewrite (TuningFacts.Qle_bool_gt _ _ Hh).
    split; [reflexivity | apply np_linspace_last; exact Hn2].
Qed.

Lemma horizon_witness :
  simulation_time (Some tf_stable) None 10 1 =
    Ok (tf_stable, np_linspace 0 (estimate_default tf_stable) 10) /\
  estimate_default tf_stable == 5 /\
  simulation_time (Some tf_stable) (Some 1) 10 1 = Ok (tf_stable, np_linspace 0 1 10).
Proof.
  destruct (horizon_is_estimated_only_when_not_requested tf_stable 10 1)
    as [[Hnone _] Hsome].
  - reflexivity.
  - lia.
  - unfold Qlt. simpl. lia.
  - split; [exact Hnone|]. split; [reflexivity|].
    apply (Hsome 1). unfold Qlt. simpl. lia.
Defined.

End StabilityFacts.

(** ** Further facts about the tuning rules and their wrappers *)

Module TuningMore.
Import Tuning Metrics TuningWrappers TuningFacts.

(** Ziegler-Nichols prints its warning block when, and only when, every
    entry check passes and L/T exceeds 0.5; a call that fails a check
    prints nothing. *)
Theorem zn_warning_exactly_on_high_ratio (K L T : Q) (c : string) :
  (fst (sintonia_pid_ziegler_nichols K L T c) = zn_warning L T <->
   (0 < K /\ 0 <= L /\ 0 < T /\
    str_in c ["P"; "PI"; "PID"]%string = true /\ 0.5 < L / T)) /\
  (fst (sintonia_pid_ziegler_nichols K L T c) = [] \/
   fst (sintonia_pid_ziegler_nichols K L T c) = zn_warning L T).
Proof.
  unfold sintonia_pid_ziegler_nichols, zn_warning.
  destruct (Qle_bool K 0) eqn:EK; [|destruct (Qlt_bool L 0) eqn:EL;
    [|destruct (Qle_bool T 0) eqn:ET;
      [|destruct (str_in c ["P"; "PI"; "PID"]%string) eqn:Ec;
        [destruct (Qlt_bool 0.5 (L / T)) eqn:Er|]]]];
    cbn [negb fst]; order_facts;
    (split; [split; [try discriminate | intros (HK & HL & HT & Hc & Hr);
                                         try lra; try discriminate] | auto]).
  - intros _. repeat split; assumption.
  - reflexivity.
Qed.

Lemma zn_warning_witness :
  0 < 1 /\ 0 <= 6 /\ 0 < 10 /\
  str_in "PI" ["P"; "PI"; "PID"]%string = true /\ 0.5 < 6 / 10.
Proof.
  apply (proj1 (zn_warning_exactly_on_high_ratio 1 6 10 "PI")).
  reflexivity.
Defined.

(** *** The dictionary wrapper *)

(** A FOPDT dictionary lacking one of the keys K, L, T makes the wrapper
    raise its incomplete-dictionary error naming the first missing key in
    the order K, L, T, whatever the control type (even an unsupported
    one); the rule is not run and nothing is printed. *)
Theorem fopdt_wrapper_missing_key (d : dict) (c : string) :
  dict_get "K" d = None \/ dict_get "L" d = None \/ dict_get "T" d = None ->
  exists key,
    tune_ziegler_nichols_from_fopdt d c = ([], Raise (incomplete_fopdt key)) /\
    dict_get key d = None /\
    (key = "K"%string \/
     (key = "L"%string /\ dict_get "K" d <> None) \/
     (key = "T"%string /\ dict_get "K" d <> None /\ dict_get "L" d <> None)).
Proof.
  intro H. unfold tune_ziegler_nichols_from_fopdt.
  destruct (dict_get "K" d) as [K|] eqn:EK.
  2:{ exists "K"%string. repeat split; auto. }
  destruct (dict_get "L" d) as [L|] eqn:EL.
  2:{ exists "L"%string. repeat split; auto.
      right. left. split; [reflexivity | discriminate]. }
  destruct (dict_get "T" d) as [T|] eqn:ET.
  2:{ exists "T"%string. repeat split; auto.
      right. right. repeat split; discriminate. }
  destruct H as [H | [H | H]]; discriminate H.
Qed.

Lemma fopdt_wrapper_missing_key_witness :
  exists key,
    tune_ziegler_nichols_from_fopdt [("K", 2); ("T", 10)]%string "PID"
      = ([], Raise (incomplete_fopdt key)) /\
    key = "L"%string.
Proof.
  destruct (fopdt_wrapper_missing_key [("K", 2); ("T", 10)]%string "PID")
    as (key & Hr & _ & Hkey).
  - right. left. reflexivity.
  - exists key. split; [exact Hr|].
    destruct Hkey as [-> | [[-> _] | [-> _]]]; [discriminate Hr | reflexivity | discriminate Hr].
Defined.

(** On a dictionary that holds K, L and T (other keys are ignored), the
    wrapper adds nothing of its own to the rule called on those values: it
    prints what the rule prints; when the rule returns gains, it returns a
    dictionary with exactly the keys Kp, Ti, Td, method, holding those gains
    and the method "Ziegler-Nichols"; when the rule raises, for a failed
    check or for a division by zero, the same error leaves the wrapper. *)
Theorem fopdt_wrapper_packages_the_rule (d : dict) (c : string) (K L T : Q) :
  dict_get "K" d = Some K -> dict_get "L" d = Some L -> dict_get "T" d = Some T ->
  fst (tune_ziegler_nichols_from_fopdt d c) = fst (sintonia_pid_ziegler_nichols K L T c) /\
  (forall Kp Ti Td,
     snd (sintonia_pid_ziegler_nichols K L T c) = Ok (Kp, Ti, Td) ->
     exists r,
       snd (tune_ziegler_nichols_from_fopdt d c) = Ok r /\
       map fst r = ["Kp"; "Ti"; "Td"; "method"]%string /\
       lookup "Kp" r = Some (VFloat Kp) /\
       lookup "Ti" r = Some (VFloat Ti) /\
       lookup "Td" r = Some (VFloat Td) /\
       lookup "method" r = Some (VStr "Ziegler-Nichols")) /\
  (forall e,
     snd (sintonia_pid_ziegler_nichols K L T c) = Raise e ->
     snd (tune_ziegler_nichols_from_fopdt d c) = Raise (from_rule e)).
Proof.
  intros EK EL ET. unfold tune_ziegler_nichols_from_fopdt. rewrite EK, EL, ET.
  destruct (sintonia_pid_ziegler_nichols K L T c) as [out r]. cbn [fst snd].
  split; [reflexivity|]. split.
  - intros Kp Ti Td ->. eexists. split; [reflexivity|]. repeat split.
  - intros e ->. reflexivity.
Qed.

Lemma fopdt_wrapper_witness :
  (exists r,
     snd (tune_ziegler_nichols_from_fopdt
            [("K", 2); ("L", 2); ("T", 10); ("name", 7)]%string "PID") = Ok r /\
     lookup "method" r = Some (VStr "Ziegler-Nichols")) /\
  snd (tune_ziegler_nichols_from_fopdt [("T", 10); ("L", 0); ("K", 2)]%string "PID")
    = Raise (from_rule ZeroDivisionError).
Proof.
  split.
  - destruct (fopdt_wrapper_packages_the_rule
                [("K", 2); ("L", 2); ("T", 10); ("name", 7)]%string "PID" 2 2 10
                eq_refl eq_refl eq_refl) as (_ & Hok & _).
    destruct (Hok (Fin (1.2 * 10 / (2 * 2))) (Fin (2.0 * 2)) (Fin (0.5 * 2)) eq_refl)
      as (r & Hr & _ & _ & _ & _ & Hm).
    exists r. split; [exact Hr | exact Hm].
  - apply (fopdt_wrapper_packages_the_rule
             [("T", 10); ("L", 0); ("K", 2)]%string "PID" 2 0 10 eq_refl eq_refl eq_refl).
    reflexivity.
Defined.

(** *** The side-by-side comparison *)

(** The comparison returns a result only for a model with K > 0, L > 0
    and T > 0: never for a model that fails a check, and never for L = 0,
    which passes the checks.  A returned result holds exactly what the two
    rules return for PID and for IAE/PID, with ratio_L_T = L/T.  What
    Ziegler-Nichols prints is printed, and an error it raises leaves the
    comparison unchanged, Cohen-Coon not being run. *)
Theorem comparison_returns_only_for_positive_model (K L T : Q) :
  (forall r,
     snd (comparar_ziegler_vs_cohen_coon K L T) = Ok r ->
     0 < K /\ 0 < L /\ 0 < T /\
     snd (sintonia_pid_ziegler_nichols K L T "PID") = Ok (ZN r) /\
     sintonia_pid_cohen_coon K L T "IAE" "PID" = Ok (CC r) /\
     ratio_L_T r = L / T) /\
  fst (comparar_ziegler_vs_cohen_coon K L T)
    = fst (sintonia_pid_ziegler_nichols K L T "PID") /\
  (forall e,
     snd (sintonia_pid_ziegler_nichols K L T "PID") = Raise e ->
     snd (comparar_ziegler_vs_cohen_coon K L T) = Raise e).
Proof.
  split; [|split].
  - intros r Hr.
    assert (Hshape :
      snd (sintonia_pid_ziegler_nichols K L T "PID") = Ok (ZN r) /\
      sintonia_pid_cohen_coon K L T "IAE" "PID" = Ok (CC r) /\
      ratio_L_T r = L / T).
    { unfold comparar_ziegler_vs_cohen_coon in Hr.
      destruct (sintonia_pid_ziegler_nichols K L T "PID") as [out [pz|e]];
        cbn [snd] in *; [|discriminate Hr].
      destruct (sintonia_pid_cohen_coon K L T "IAE" "PID") as [pc|e];
        [|discriminate Hr].
      injection Hr as <-. repeat split. }
    destruct Hshape as (Hzn & Hcc & Hratio).
    destruct (Qlt_le_dec 0 K) as [HK | HK].
    2:{ exfalso. revert Hzn. unfold sintonia_pid_ziegler_nichols.
        rewrite (proj2 (Qle_bool_iff K 0) HK). discriminate. }
    destruct (Qlt_le_dec L 0) as [HL | HL].
    { exfalso. revert Hzn. unfold sintonia_pid_ziegler_nichols.
      rewrite (Qle_bool_gt K 0 HK), (Qlt_bool_lt L 0 HL). discriminate. }
    destruct (Qlt_le_dec 0 T) as [HT | HT].
    2:{ exfalso. revert Hzn. unfold sintonia_pid_ziegler_nichols.
        rewrite (Qle_bool_gt K 0 HK), (Qlt_bool_ge L 0 HL), (proj2 (Qle_bool_iff T 0) HT).
        discriminate. }
    split; [exact HK|]. split; [|split; [exact HT | repeat split; assumption]].
    destruct (Qlt_le_dec 0 L) as [HL' | HL']; [exact HL'|]. exfalso.
    assert (HL0 : L == 0) by (apply Qle_antisym; assumption).
    revert Hzn.
    rewrite zn_checks_pass by (try assumption; reflexivity).
    cbn [String.eqb Ascii.eqb Bool.eqb snd].
    rewrite fdiv_zero by (rewrite HL0; ring). discriminate.
  - unfold comparar_ziegler_vs_cohen_coon.
    destruct (sintonia_pid_ziegler_nichols K L T "PID") as [out zn]. reflexivity.
  - intros e He. unfold comparar_ziegler_vs_cohen_coon.
    destruct (sintonia_pid_ziegler_nichols K L T "PID") as [out zn]. cbn [snd] in *.
    rewrite He. reflexivity.
Qed.

Lemma comparison_witness :
  0 < 1 /\ 0 < 1 /\ 0 < 5 /\
  snd (comparar_ziegler_vs_cohen_coon 1 0 5) = Raise ZeroDivisionError.
Proof.
  destruct (comparison_returns_only_for_positive_model 1 1 5) as (Hok & _).
  destruct (Hok (mkComparison (Fin (1.2 * 5 / (1 * 1)), Fin (2.0 * 1), Fin (0.5 * 1))
                              (Fin (1.35 * 5 / (1 * 1)), Fin (2.5 * 1), Fin (0.37 * 1))
                              (1 / 5)) eq_refl)
    as (HK & HL & HT & _).
  split; [exact HK|]. split; [exact HL|]. split; [exact HT|].
  apply (comparison_returns_only_for_positive_model 1 0 5). reflexivity.
Defined.

End TuningMore.

(** ** Further facts about the response metrics *)

Module MetricsMore.
Import Metrics MetricsFacts.

(** A boolean array is all true, or it has a last false entry. *)
Lemma last_false_entry (w : list bool) :
  (forall j, (j < length w)%nat -> nth j w false = true) \/
  (exists i, (i < length w)%nat /\ nth i w false = false /\
             forall j, (i < j < length w)%nat -> nth j w false = true).
Proof.
  induction w as [|b r IH].
  - left. intros j Hj. cbn in Hj. lia.
  - destruct IH as [Hall | (i & Hi & Hf & Hafter)].
    + destruct b.
      * left. intros [|j] Hj; [reflexivity|]. cbn. apply Hall. cbn in Hj. lia.
      * right. exists 0%nat. cbn. repeat split; [lia|].
        intros [|j] Hj; [lia|]. apply Hall. lia.
    + right. exists (S i). cbn. repeat split; [lia | exact Hf|].
      intros [|j] Hj; [lia|]. apply Hafter. lia.
Qed.

(** The settling time is one of the time samples, and it deserves its
    name: on a trace that passes validation and ends inside the band,
    every sample from that time on lies inside the band, and the sample
    just before it (if any) lies outside. *)
Theorem settling_time_is_where_the_trace_settles
    (t y : list Q) (yref tolerance : Q) :
  valid_trace t y yref tolerance ->
  exists m ts k,
    calcular_metricas_respuesta (map Fin t) (map Fin y) yref tolerance = Ok m /\
    dict_get "ts" m = Some ts /\
    (k < length t)%nat /\ ts = nth k t 0 /\
    (in_band yref tolerance (last y 0) ->
       (forall j, (k <= j < length y)%nat -> in_band yref tolerance (nth j y 0)) /\
       (k = 0%nat \/ ~ in_band yref tolerance (nth (k - 1) y 0))).
Proof.
  intro V. pose proof V as (Hlen & Heq & _).
  rewrite (metrics_checks_pass t y yref tolerance V).
  eexists. exists (ts_of t y yref tolerance).
  destruct (last_false_entry (within_band y yref tolerance))
    as [Hall | (i & Hi & Hf & Hafter)]; rewrite within_band_length in *.
  - exists 0%nat. split; [reflexivity|]. split; [reflexivity|]. split; [lia|].
    assert (Hin : forall j, (j < length y)%nat -> in_band yref tolerance (nth j y 0)).
    { intros j Hj. apply within_band_nth; [exact Hj | apply Hall; exact Hj]. }
    split; [apply ts_of_always_inside; [lia | exact Hin]|].
    intros _. split; [intros j Hj; apply Hin; lia | left; reflexivity].
  - assert (Hout : ~ in_band yref tolerance (nth i y 0)).
    { apply within_band_nth_false; assumption. }
    assert (Hin : forall j, (i < j < length y)%nat -> in_band yref tolerance (nth j y 0)).
    { intros j Hj. apply within_band_nth; [lia | apply Hafter; exact Hj]. }
    destruct (Nat.lt_ge_cases (i + 1) (length y)) as [Hnext | Hlast].
    + exists (i + 1)%nat. split; [reflexivity|]. split; [reflexivity|]. split; [lia|].
      split; [apply ts_of_after_last_excursion; assumption|].
      intros _. split; [intros j Hj; apply Hin; lia|].
      right. replace (i + 1 - 1)%nat with i by lia. exact Hout.
    + assert (Hi' : i = (length y - 1)%nat) by lia.
      assert (Hout' : ~ in_band yref tolerance (last y 0)).
      { rewrite last_is_nth, <- Hi'. exact Hout. }
      exists (length t - 1)%nat. split; [reflexivity|]. split; [reflexivity|].
      split; [lia|]. split.
      * rewrite <- last_is_nth. apply ts_of_ends_outside; [exact Heq | lia | exact Hout'].
      * intro Hlast_in. contradiction.
Qed.

Lemma settling_time_settles_witness :
  exists m ts k,
    calcular_metricas_respuesta (map Fin Examples.t_example) (map Fin Examples.y_example)
      1 0.05 = Ok m /\
    dict_get "ts" m = Some ts /\ (k < 10)%nat /\ ts = nth k Examples.t_example 0.
Proof.
  destruct (settling_time_is_where_the_trace_settles _ _ _ _ example_trace_valid)
    as (m & ts & k & Hm & Hts & Hk & Hnth & _).
  exists m, ts, k. repeat split; assumption.
Defined.

(** *** The overshoot *)

Lemma scaled_sign (x a : Q) : 0 < a -> (x / a * 100.0 <= 0 <-> x <= 0).
Proof.
  intro Ha.
  assert (Hc : 0 < / a * 100.0).
  { apply Qmult_lt_0_compat; [apply Qinv_lt_0_compat; exact Ha | reflexivity]. }
  setoid_replace (x / a * 100.0) with (x * (/ a * 100.0)) by (unfold Qdiv; ring).
  set (c := / a * 100.0) in *. clearbody c. split; intro H.
  - destruct (Qlt_le_dec 0 x) as [Hx | Hx]; [|exact Hx]. exfalso.
    assert (0 < x * c) by (apply Qmult_lt_0_compat; assumption). lra.
  - setoid_replace 0 with (0 * c) by ring. apply Qmult_le_compat_r; [exact H|].
    apply Qlt_le_weak. exact Hc.
Qed.

(** The reported overshoot Mp is at most zero exactly when no output
    sample exceeds the reference, and positive exactly when some sample
    does, whatever the sign of the reference. *)
Theorem overshoot_sign (t y : list Q) (yref tolerance : Q) :
  valid_trace t y yref tolerance ->
  exists m Mp,
    calcular_metricas_respuesta (map Fin t) (map Fin y) yref tolerance = Ok m /\
    dict_get "Mp" m = Some Mp /\
    (Mp <= 0 <-> forall v, In v y -> v <= yref) /\
    (0 < Mp <-> exists v, In v y /\ yref < v).
Proof.
  intro V. pose proof V as (Hlen & Heq & Hyref & _).
  rewrite (metrics_checks_pass t y yref tolerance V).
  eexists. eexists. split; [reflexivity|]. split; [reflexivity|].
  assert (Hne : y <> []) by (intros ->; cbn in Heq; lia).
  destruct (np_max_spec y Hne) as [Hin Hub].
  assert (Habs : 0 < Qabs yref).
  { destruct (Qlt_le_dec 0 (Qabs yref)) as [H | H]; [exact H|]. exfalso.
    apply Hyref. pose proof (Qabs_nonneg yref) as Hn.
    assert (Hz : Qabs yref == 0) by (apply Qle_antisym; assumption).
    revert Hz. apply Qabs_case; intros _ Hz; lra. }
  pose proof (scaled_sign (np_max y - yref) (Qabs yref) Habs) as Hsign.
  assert (Hle : (np_max y - yref) / Qabs yref * 100.0 <= 0 <->
                forall v, In v y -> v <= yref).
  { rewrite Hsign. split.
    - intros H v Hv. specialize (Hub v Hv). lra.
    - intro H. specialize (H (np_max y) Hin). lra. }
  split; [exact Hle|]. split.
  - intro Hpos. exists (np_max y). split; [exact Hin|].
    destruct (Qlt_le_dec yref (np_max y)) as [H | H]; [exact H|]. exfalso.
    assert (H0 : np_max y - yref <= 0) by lra. apply (proj2 Hsign) in H0. lra.
  - intros [v [Hv Hgt]].
    destruct (Qlt_le_dec 0 ((np_max y - yref) / Qabs yref * 100.0)) as [H | H]; [exact H|].
    exfalso. pose proof (proj1 Hle H v Hv) as Hv'. lra.
Qed.

Lemma overshoot_sign_witness :
  exists m Mp,
    calcular_metricas_respuesta (map Fin Examples.t_example) (map Fin Examples.y_example)
      1 0.05 = Ok m /\
    dict_get "Mp" m = Some Mp /\ 0 < Mp.
Proof.
  destruct (overshoot_sign _ _ _ _ example_trace_valid) as (m & Mp & Hm & HMp & _ & Hpos).
  exists m, Mp. split; [exact Hm|]. split; [exact HMp|].
  apply Hpos. exists 1.2. split; [cbn; tauto | unfold Qlt; simpl; lia].
Defined.

(** *** Absolute values *)

Lemma Qabs_positive (c : Q) : ~ c == 0 -> 0 < Qabs c.
Proof.
  intro Hc. destruct (Qlt_le_dec 0 (Qabs c)) as [H | H]; [exact H|]. exfalso.
  apply Hc. pose proof (Qabs_nonneg c) as Hn.
  assert (Hz : Qabs c == 0) by (apply Qle_antisym; assumption).
  revert Hz. apply Qabs_case; intros _ Hz; lra.
Qed.

End MetricsMore.

(** ** Facts about the comparison of two metric reports *)

Module MetricsCompareFacts.
Import Metrics MetricsFacts MetricsCompare.

(** What the improvement dictionary holds under each of the three keys. *)
Lemma mejora_lookup (p c : dict) (k : string) :
  In k ["ts"; "ess"; "Mp"]%string ->
  dict_get k (mejora_relativa (comparar_metricas p c)) =
  match dict_get k p, dict_get k c with
  | Some v1, Some v2 => Some (mejora_of v1 v2)
  | _, _ => None
  end.
Proof.
  intro Hk. unfold comparar_metricas, mejora_entry, mejora_of.
  cbn [mejora_relativa flat_map].
  destruct Hk as [<- | [<- | [<- | []]]];
    destruct (dict_get "ts" p), (dict_get "ts" c),
             (dict_get "ess" p), (dict_get "ess" c),
             (dict_get "Mp" p), (dict_get "Mp" c); reflexivity.
Qed.

Lemma mejora_lookup_other (p c : dict) (k : string) :
  ~ In k ["ts"; "ess"; "Mp"]%string ->
  dict_get k (mejora_relativa (comparar_metricas p c)) = None.
Proof.
  intro Hk. unfold comparar_metricas, mejora_entry.
  cbn [mejora_relativa flat_map].
  assert (H1 : String.eqb k "ts" = false) by (apply String.eqb_neq; intros ->; apply Hk; cbn; tauto).
  assert (H2 : String.eqb k "ess" = false) by (apply String.eqb_neq; intros ->; apply Hk; cbn; tauto).
  assert (H3 : String.eqb k "Mp" = false) by (apply String.eqb_neq; intros ->; apply Hk; cbn; tauto).
  destruct (dict_get "ts" p), (dict_get "ts" c),
           (dict_get "ess" p), (dict_get "ess" c),
           (dict_get "Mp" p), (dict_get "Mp" c);
    cbn [app dict_get]; rewrite ?H1, ?H2, ?H3; reflexivity.
Qed.

(** The improvement dictionary has an entry under a key exactly when the
    key is one of ts, ess, Mp and both reports hold it; keys found in one
    report only, and all other keys, are skipped without error. *)
Theorem improvement_keys (p c : dict) (k : string) :
  dict_get k (mejora_relativa (comparar_metricas p c)) <> None <->
  (In k ["ts"; "ess"; "Mp"]%string /\ dict_get k p <> None /\ dict_get k c <> None).
Proof.
  split.
  - intro H.
    assert (Hk : In k ["ts"; "ess"; "Mp"]%string).
    { destruct (in_dec string_dec k ["ts"; "ess"; "Mp"]%string) as [Hin | Hnot];
        [exact Hin|]. exfalso. apply H. apply mejora_lookup_other. exact Hnot. }
    split; [exact Hk|]. rewrite (mejora_lookup p c k Hk) in H.
    destruct (dict_get k p), (dict_get k c); split; congruence.
  - intros (Hk & Hp & Hc). rewrite (mejora_lookup p c k Hk).
    destruct (dict_get k p), (dict_get k c); congruence.
Qed.

Lemma improvement_keys_witness :
  In "ess"%string ["ts"; "ess"; "Mp"]%string /\
  dict_get "ess" [("ts", 50); ("ess", 0.3)]%string <> None /\
  dict_get "ess" [("ess", 0); ("y_max", 1)]%string <> None.
Proof.
  apply (proj1 (improvement_keys [("ts", 50); ("ess", 0.3)]%string
                                 [("ess", 0); ("y_max", 1)]%string "ess")).
  discriminate.
Defined.

(** For a key both reports hold, with plant value v1 and controlled value
    v2: a zero v1 gives the improvement 0 without any division, whatever
    v2; a nonzero v1 gives (v1 - v2)/|v1|, which is positive exactly when
    v2 < v1 and zero exactly when v2 = v1. *)
Theorem improvement_value (p c : dict) (k : string) (v1 v2 : Q) :
  In k ["ts"; "ess"; "Mp"]%string ->
  dict_get k p = Some v1 -> dict_get k c = Some v2 ->
  exists v,
    dict_get k (mejora_relativa (comparar_metricas p c)) = Some v /\
    (v1 == 0 -> v == 0) /\
    (~ v1 == 0 ->
       v == (v1 - v2) / Qabs v1 /\ (0 < v <-> v2 < v1) /\ (v == 0 <-> v2 == v1)).
Proof.
  intros Hk Hp Hc. rewrite (mejora_lookup p c k Hk), Hp, Hc.
  exists (mejora_of v1 v2). split; [reflexivity|]. unfold mejora_of.
  destruct (Qeq_bool v1 0) eqn:E; cbn [negb].
  - apply Qeq_bool_iff in E. split; [intros _; reflexivity | intro H; contradiction].
  - apply Qeq_bool_neq in E. split; [intro H; contradiction|]. intros _.
    split; [reflexivity|].
    pose proof (MetricsMore.Qabs_positive v1 E) as Ha.
    assert (Hinv : 0 < / Qabs v1) by (apply Qinv_lt_0_compat; exact Ha).
    unfold Qdiv. set (a := / Qabs v1) in *. clearbody a. split; split; intro H.
    + destruct (Qlt_le_dec v2 v1) as [Hlt | Hge]; [exact Hlt|]. exfalso.
      assert ((v1 - v2) * a <= 0 * a)
        by (apply Qmult_le_compat_r; [lra | apply Qlt_le_weak; exact Hinv]).
      lra.
    + apply Qmult_lt_0_compat; [lra | exact Hinv].
    + apply Qmult_integral in H. destruct H as [H | H]; lra.
    + rewrite H. ring.
Qed.

Lemma improvement_value_witness :
  exists v,
    dict_get "ts" (mejora_relativa (comparar_metricas
                     [("ts", 50); ("Mp", 0); ("ess", 0.3)]%string
                     [("ts", 5); ("Mp", 15); ("ess", 0)]%string)) = Some v /\
    v == 0.9.
Proof.
  destruct (improvement_value [("ts", 50); ("Mp", 0); ("ess", 0.3)]%string
                              [("ts", 5); ("Mp", 15); ("ess", 0)]%string "ts" 50 5)
    as (v & Hv & _ & Hnz); try reflexivity; [cbn; tauto|].
  exists v. split; [exact Hv|].
  destruct Hnz as (Heq & _); [intro H; discriminate H|].
  rewrite Heq. reflexivity.
Defined.

(** Reports computed by [calcular_metricas_respuesta] from two valid
    traces, each with its own reference and tolerance, always compare on
    all three keys: the improvement dictionary has exactly the keys ts,
    ess, Mp, in that order. *)
Theorem computed_reports_compare_on_all_keys
    (t1 y1 t2 y2 : list Q) (yref1 tol1 yref2 tol2 : Q) :
  valid_trace t1 y1 yref1 tol1 -> valid_trace t2 y2 yref2 tol2 ->
  exists m1 m2,
    calcular_metricas_respuesta (map Fin t1) (map Fin y1) yref1 tol1 = Ok m1 /\
    calcular_metricas_respuesta (map Fin t2) (map Fin y2) yref2 tol2 = Ok m2 /\
    dict_keys (mejora_relativa (comparar_metricas m1 m2)) = ["ts"; "ess"; "Mp"]%string /\
    planta (comparar_metricas m1 m2) = m1 /\
    controlada (comparar_metricas m1 m2) = m2.
Proof.
  intros V1 V2.
  rewrite (metrics_checks_pass _ _ _ _ V1), (metrics_checks_pass _ _ _ _ V2).
  do 2 eexists. split; [reflexivity|]. split; [reflexivity|].
  repeat split.
Qed.

Lemma computed_reports_witness :
  exists m1 m2,
    calcular_metricas_respuesta (map Fin Examples.t_example) (map Fin Examples.y_example)
      1 0.05 = Ok m1 /\
    calcular_metricas_respuesta (map Fin Examples.t_example) (map Fin Examples.y_example)
      1 0.02 = Ok m2 /\
    dict_keys (mejora_relativa (comparar_metricas m1 m2)) = ["ts"; "ess"; "Mp"]%string.
Proof.
  assert (V2 : valid_trace Examples.t_example Examples.y_example 1 0.02).
  { destruct example_trace_valid as (H1 & H2 & H3 & _).
    unfold valid_trace. repeat split; try assumption; unfold Qlt; simpl; lia. }
  destruct (computed_reports_compare_on_all_keys _ _ _ _ 1 0.05 1 0.02
              example_trace_valid V2) as (m1 & m2 & H1 & H2 & Hk & _).
  exists m1, m2. repeat split; assumption.
Defined.

End MetricsCompareFacts.

(** ** Facts about the construction and the DC gain of transfer functions *)

Module TransferFunctionMore.
Import Metrics MetricsFacts TransferFunction TransferFunctionBuild.

(** *** DC gain *)

(** Evaluating a polynomial at 0 leaves its constant term. *)
Lemma np_polyval_at_zero (p : list Q) : np_polyval p 0 == last p 0.
Proof.
  unfold np_polyval. induction p as [|a l IH] using rev_ind; [reflexivity|].
  rewrite fold_left_app, last_last. cbn [fold_left]. ring.
Qed.

(** The DC gain is the ratio of the constant terms of numerator and
    denominator; it is refused with a ValueError exactly when the constant
    term of the denominator is below 1e-15 in absolute value, as for any
    system with a pole at the origin.  For K/(Ts+1) it is K. *)
Theorem dc_gain_is_ratio_of_constant_terms (tf : TransferFunction) :
  (Qabs (last (den tf) 0) < 1 # 1000000000000000 <-> get_dc_gain tf = Raise ValueError) /\
  ((1 # 1000000000000000) <= Qabs (last (den tf) 0) <->
     exists g, get_dc_gain tf = Ok g /\ g == last (num tf) 0 / last (den tf) 0) /\
  (forall K T ps, exists g, get_dc_gain (mkTF [K] [T; 1] ps) = Ok g /\ g == K).
Proof.
  unfold get_dc_gain.
  pose proof (np_polyval_at_zero (den tf)) as Hd.
  pose proof (np_polyval_at_zero (num tf)) as Hn.
  split; [|split].
  - destruct (Qlt_bool (Qabs (np_polyval (den tf) 0)) (1 # 1000000000000000)) eqn:E.
    + apply Qlt_bool_iff in E. rewrite Hd in E. split; [reflexivity | intros _; exact E].
    + apply Qlt_bool_false_iff in E. rewrite Hd in E.
      split; [intro H; exfalso; lra | discriminate].
  - destruct (Qlt_bool (Qabs (np_polyval (den tf) 0)) (1 # 1000000000000000)) eqn:E.
    + apply Qlt_bool_iff in E. rewrite Hd in E.
      split; [intro H; exfalso; lra | intros [g [Hg _]]; discriminate Hg].
    + apply Qlt_bool_false_iff in E. rewrite Hd in E.
      split; [|intros _; exact E]. intros _. eexists. split; [reflexivity|].
      rewrite Hn, Hd. reflexivity.
  - intros K T ps. cbn [num den].
    destruct (Qlt_bool (Qabs (np_polyval [T; 1] 0)) (1 # 1000000000000000)) eqn:E.
    + exfalso. apply Qlt_bool_iff in E. rewrite np_polyval_at_zero in E.
      cbn in E. unfold Qlt in E. simpl in E. lia.
    + eexists. split; [reflexivity|]. rewrite !np_polyval_at_zero. cbn [last]. field.
Qed.

Lemma dc_gain_witness : get_dc_gain (mkTF [1] [1; 0] [mkC 0 0]) = Raise ValueError.
Proof.
  apply (proj1 (dc_gain_is_ratio_of_constant_terms (mkTF [1] [1; 0] [mkC 0 0]))).
  reflexivity.
Defined.

(** *** Construction *)

Lemma no_nan_no_inf_is_finite (a : list float) :
  existsb isnan a = false -> existsb isinf a = false -> any_not_finite a = false.
Proof.
  unfold any_not_finite. induction a as [|x a IH]; [reflexivity|].
  cbn [existsb]. rewrite !orb_false_iff. intros [Hx1 H1] [Hx2 H2].
  split; [|apply IH; assumption]. destruct x; try reflexivity; discriminate.
Qed.

Lemma finite_has_no_nan_no_inf (l : list Q) :
  existsb isnan (map Fin l) = false /\ existsb isinf (map Fin l) = false.
Proof.
  induction l as [|x l [IH1 IH2]]; [split; reflexivity|].
  cbn. split; assumption.
Qed.

(** A finite array is not close to zero exactly when one of its entries
    exceeds 1e-8 in absolute value. *)
Lemma np_allclose_zero_finite (l : list Q) :
  np_allclose_zero (map Fin l) = false <->
  exists d, In d l /\ (1 # 100000000) < Qabs d.
Proof.
  unfold np_allclose_zero. induction l as [|x l IH].
  - cbn. split; [discriminate | intros [d [[] _]]].
  - cbn [map forallb]. rewrite andb_false_iff, IH. split.
    + intros [H | [d [Hd Hlt]]].
      * exists x. split; [left; reflexivity|]. apply Qle_bool_false_iff. exact H.
      * exists d. split; [right; exact Hd | exact Hlt].
    + intros [d [[<- | Hd] Hlt]].
      * left. apply Qle_bool_false_iff. exact Hlt.
      * right. exists d. split; assumption.
Qed.

(** Whatever the library constructor does, [create_transfer_function]
    hands it coefficients only when both arrays are non-empty and finite
    and some denominator coefficient exceeds 1e-8 in absolute value; then
    its outcome is the constructor's.  In particular a denominator whose
    coefficients are all within 1e-8 of zero is refused as "all zeros"
    even when none of them is zero. *)
Theorem create_transfer_function_accepts
    (ct_TransferFunction : list Q -> list Q -> option TransferFunction)
    (numerator denominator : list float) (tf : TransferFunction) :
  create_transfer_function ct_TransferFunction numerator denominator = Ok tf <->
  (numerator <> [] /\ denominator <> [] /\
   numerator = map Fin (values numerator) /\
   denominator = map Fin (values denominator) /\
   (exists d, In d (values denominator) /\ (1 # 100000000) < Qabs d) /\
   ct_TransferFunction (values numerator) (values denominator) = Some tf).
Proof.
  unfold create_transfer_function. split.
  - destruct numerator as [|n0 nr]; [discriminate|].
    destruct denominator as [|d0 dr]; [discriminate|].
    cbn [length Nat.eqb].
    destruct (np_allclose_zero (d0 :: dr)) eqn:Ez; [discriminate|].
    destruct (existsb isnan (n0 :: nr)) eqn:En1; [discriminate|].
    destruct (existsb isnan (d0 :: dr)) eqn:Ed1; [discriminate|]. cbn [orb].
    destruct (existsb isinf (n0 :: nr)) eqn:En2; [discriminate|].
    destruct (existsb isinf (d0 :: dr)) eqn:Ed2; [discriminate|]. cbn [orb].
    pose proof (finite_array_is_map_Fin _ (no_nan_no_inf_is_finite _ En1 En2)) as Hn.
    pose proof (finite_array_is_map_Fin _ (no_nan_no_inf_is_finite _ Ed1 Ed2)) as Hd.
    destruct (ct_TransferFunction _ _) as [tf'|] eqn:Ec; [|discriminate].
    intro H. injection H as <-.
    split; [discriminate|]. split; [discriminate|].
    split; [exact Hn|]. split; [exact Hd|]. split; [|reflexivity].
    apply np_allclose_zero_finite. rewrite <- Hd. exact Ez.
  - intros (Hn0 & Hd0 & Hn & Hd & Hbig & Hc).
    destruct numerator as [|n0 nr]; [congruence|].
    destruct denominator as [|d0 dr]; [congruence|].
    cbn [length Nat.eqb].
    apply np_allclose_zero_finite in Hbig. rewrite <- Hd in Hbig. rewrite Hbig.
    rewrite Hn at 1. rewrite Hd at 1.
    rewrite (proj1 (finite_has_no_nan_no_inf _)), (proj1 (finite_has_no_nan_no_inf _)).
    cbn [orb].
    rewrite Hn at 1. rewrite Hd at 1.
    rewrite (proj2 (finite_has_no_nan_no_inf _)), (proj2 (finite_has_no_nan_no_inf _)).
    cbn [orb]. rewrite Hc. reflexivity.
Qed.

(** A constructor stand-in that stores the coefficients with no poles. *)
Lemma create_transfer_function_witness :
  create_transfer_function (fun n d => Some (mkTF n d [])) [Fin 1] [Fin 1; Fin 1]
    = Ok (mkTF [1] [1; 1] []).
Proof.
  apply (proj2 (create_transfer_function_accepts
                  (fun n d => Some (mkTF n d [])) [Fin 1] [Fin 1; Fin 1] (mkTF [1] [1; 1] []))).
  repeat split; try discriminate.
  exists 1. split; [left; reflexivity | reflexivity].
Defined.

(** A float array is not close to zero exactly when one of its entries is
    non-finite or exceeds 1e-8 in absolute value. *)
Lemma np_allclose_zero_false_iff (a : list float) :
  np_allclose_zero a = false <->
  exists x, In x a /\ forall q, x = Fin q -> (1 # 100000000) < Qabs q.
Proof.
  unfold np_allclose_zero. induction a as [|x a IH].
  - cbn. split; [discriminate | intros [x [[] _]]].
  - cbn [forallb]. rewrite andb_false_iff, IH. split.
    + intros [H | [z [Hz Hbig]]].
      * exists x. split; [left; reflexivity|]. intros q ->.
        apply Qle_bool_false_iff. exact H.
      * exists z. split; [right; exact Hz | exact Hbig].
    + intros [z [[<- | Hz] Hbig]].
      * left. destruct x as [q| | |]; try reflexivity.
        apply Qle_bool_false_iff. apply Hbig. reflexivity.
      * right. exists z. split; assumption.
Qed.

Lemma existsb_isnan_iff (a : list float) : existsb isnan a = true <-> In NaN a.
Proof.
  rewrite existsb_exists. split.
  - intros [x [Hx Hn]]. destruct x; try discriminate Hn. exact Hx.
  - intro H. exists NaN. split; [exact H | reflexivity].
Qed.

Lemma existsb_isinf_iff (a : list float) :
  existsb isinf a = true <-> (In PInf a \/ In NInf a).
Proof.
  rewrite existsb_exists. split.
  - intros [x [Hx Hn]]. destruct x; try discriminate Hn; [left | right]; exact Hx.
  - intros [H | H]; [exists PInf | exists NInf]; (split; [exact H | reflexivity]).
Qed.

(** The order of the checks, each with its own message: an empty
    numerator is reported first, then an empty denominator, then a
    denominator close to zero everywhere (so a numerator holding NaN over a
    zero denominator is reported as a zero denominator), then NaN in either
    array (even when an infinity is present too), then an infinity.  An
    array holding a non-finite value never reaches the constructor. *)
Theorem create_transfer_function_rejects
    (ct_TransferFunction : list Q -> list Q -> option TransferFunction)
    (numerator denominator : list float) :
  (numerator = [] ->
     create_transfer_function ct_TransferFunction numerator denominator
       = Raise (InvalidTransferFunctionError numerator_empty)) /\
  (numerator <> [] -> denominator = [] ->
     create_transfer_function ct_TransferFunction numerator denominator
       = Raise (InvalidTransferFunctionError denominator_empty)) /\
  (numerator <> [] -> denominator <> [] ->
   (forall x, In x denominator -> exists q, x = Fin q /\ Qabs q <= 1 # 100000000) ->
     create_transfer_function ct_TransferFunction numerator denominator
       = Raise (InvalidTransferFunctionError denominator_all_zeros)) /\
  (numerator <> [] -> denominator <> [] ->
   (exists x, In x denominator /\ forall q, x = Fin q -> (1 # 100000000) < Qabs q) ->
   In NaN numerator \/ In NaN denominator ->
     create_transfer_function ct_TransferFunction numerator denominator
       = Raise (InvalidTransferFunctionError coefficients_nan)) /\
  (numerator <> [] -> denominator <> [] ->
   (exists x, In x denominator /\ forall q, x = Fin q -> (1 # 100000000) < Qabs q) ->
   ~ In NaN numerator -> ~ In NaN denominator ->
   (In PInf numerator \/ In NInf numerator) \/ (In PInf denominator \/ In NInf denominator) ->
     create_transfer_function ct_TransferFunction numerator denominator
       = Raise (InvalidTransferFunctionError coefficients_inf)) /\
  ((exists x, (In x numerator \/ In x denominator) /\ isfinite x = false) ->
     exists m, create_transfer_function ct_TransferFunction numerator denominator
                 = Raise (InvalidTransferFunctionError m) /\ m <> constructor_failed).
Proof.
  unfold create_transfer_function. split; [|split; [|split; [|split; [|split]]]].
  - intros ->. reflexivity.
  - intros Hn ->. destruct numerator; [congruence | reflexivity].
  - intros Hn Hd Hall.
    destruct numerator as [|n0 nr]; [congruence|].
    destruct denominator as [|d0 dr]; [congruence|]. cbn [length Nat.eqb].
    replace (np_allclose_zero (d0 :: dr)) with true; [reflexivity|].
    symmetry. unfold np_allclose_zero. apply forallb_forall. intros x Hx.
    destruct (Hall x Hx) as [q [-> Hq]]. apply Qle_bool_iff. exact Hq.
  - intros Hn Hd Hbig Hnan.
    destruct numerator as [|n0 nr]; [congruence|].
    destruct denominator as [|d0 dr]; [congruence|]. cbn [length Nat.eqb].
    rewrite (proj2 (np_allclose_zero_false_iff _) Hbig).
    replace (existsb isnan (n0 :: nr) || existsb isnan (d0 :: dr)) with true;
      [reflexivity|].
    symmetry. apply orb_true_iff. rewrite !existsb_isnan_iff. exact Hnan.
  - intros Hn Hd Hbig Hnn Hnd Hinf.
    destruct numerator as [|n0 nr]; [congruence|].
    destruct denominator as [|d0 dr]; [congruence|]. cbn [length Nat.eqb].
    rewrite (proj2 (np_allclose_zero_false_iff _) Hbig).
    replace (existsb isnan (n0 :: nr) || existsb isnan (d0 :: dr)) with false.
    2:{ symmetry. apply orb_false_iff.
        split; apply not_true_iff_false; rewrite existsb_isnan_iff; assumption. }
    replace (existsb isinf (n0 :: nr) || existsb isinf (d0 :: dr)) with true;
      [reflexivity|].
    symmetry. apply orb_true_iff. rewrite !existsb_isinf_iff. exact Hinf.
  - intros [x [Hx Hf]].
    destruct numerator as [|n0 nr]; [eexists; split; [reflexivity | discriminate]|].
    destruct denominator as [|d0 dr]; [eexists; split; [reflexivity | discriminate]|].
    cbn [length Nat.eqb].
    destruct (np_allclose_zero (d0 :: dr)); [eexists; split; [reflexivity | discriminate]|].
    destruct (existsb isnan (n0 :: nr) || existsb isnan (d0 :: dr)) eqn:E1;
      [eexists; split; [reflexivity | discriminate]|].
    destruct (existsb isinf (n0 :: nr) || existsb isinf (d0 :: dr)) eqn:E2;
      [eexists; split; [reflexivity | discriminate]|].
    exfalso. apply orb_false_iff in E1, E2. destruct E1 as [En1 Ed1], E2 as [En2 Ed2].
    pose proof (no_nan_no_inf_is_finite _ En1 En2) as Fn.
    pose proof (no_nan_no_inf_is_finite _ Ed1 Ed2) as Fd.
    apply not_true_iff_false in Fn, Fd.
    rewrite any_not_finite_true_iff in Fn, Fd.
    destruct Hx as [Hx | Hx]; [apply Fn | apply Fd]; exists x; split; assumption.
Qed.

Lemma create_transfer_function_rejects_witness :
  create_transfer_function (fun n d => Some (mkTF n d [])) [NaN] [Fin (1 # 1000000000)]
    = Raise (InvalidTransferFunctionError denominator_all_zeros) /\
  create_transfer_function (fun n d => Some (mkTF n d [])) [PInf; NaN] [Fin 1; NInf]
    = Raise (InvalidTransferFunctionError coefficients_nan) /\
  create_transfer_function (fun n d => Some (mkTF n d [])) [Fin 1] [Fin 1; NInf]
    = Raise (InvalidTransferFunctionError coefficients_inf).
Proof.
  split; [|split].
  - apply (create_transfer_function_rejects (fun n d => Some (mkTF n d []))
             [NaN] [Fin (1 # 1000000000)]); try discriminate.
    intros x [<- | []]. eexists. split; [reflexivity|]. unfold Qle. simpl. lia.
  - apply (create_transfer_function_rejects (fun n d => Some (mkTF n d []))
             [PInf; NaN] [Fin 1; NInf]); try discriminate.
    + exists NInf. split; [right; left; reflexivity | intros q H; discriminate H].
    + left. right. left. reflexivity.
  - apply (create_transfer_function_rejects (fun n d => Some (mkTF n d []))
             [Fin 1] [Fin 1; NInf]); try discriminate.
    + exists NInf. split; [right; left; reflexivity | intros q H; discriminate H].
    + intros [H | []]. discriminate H.
    + intros [H | [H | []]]; discriminate H.
    + right. right. right. left. reflexivity.
Defined.

End TransferFunctionMore.

(** ** Further facts about the open-loop simulation *)

Module OpenLoopMore.
Import Metrics MetricsFacts TransferFunction OpenLoop Scenarios StabilityFacts.

(** *** The settling estimate *)

Lemma estimate_default_bounds (tf : TransferFunction) :
  0 < estimate_default tf /\ estimate_default tf <= 1000.
Proof.
  unfold estimate_default, _estimate_settling_time.
  destruct (length (poles tf) =? 0)%nat; [split; [reflexivity | discriminate]|].
  set (s := np_max (np_real (poles tf))). clearbody s.
  destruct (Qle_bool 0 s) eqn:E; [split; [reflexivity | discriminate]|].
  apply Qle_bool_false_iff in E. split.
  - apply Q.min_glb_lt; [|reflexivity].
    setoid_replace (-5.0 / s) with (5 / (- s)) by (field; lra).
    apply TuningFacts.ratio_positive; lra.
  - apply Qle_trans with 1000.0; [apply Q.le_min_r | discriminate].
Qed.

(** With its default arguments the settling estimate is always a usable
    horizon: strictly positive and at most 1000 seconds, whatever the
    poles (stable or not, or none at all); it is 10 without poles, 1000
    when some pole has a non-negative real part, and min(-5/s, 1000) for
    the largest real part s otherwise. *)
Theorem estimate_is_positive_and_capped (tf : TransferFunction) :
  0 < estimate_default tf /\ estimate_default tf <= 1000 /\
  (poles tf = [] -> estimate_default tf == 10) /\
  (poles tf <> [] -> 0 <= np_max (np_real (poles tf)) -> estimate_default tf == 1000) /\
  (poles tf <> [] -> np_max (np_real (poles tf)) < 0 ->
     estimate_default tf == Qmin (-5 / np_max (np_real (poles tf))) 1000).
Proof.
  destruct (estimate_default_bounds tf) as [Hpos Hcap].
  split; [exact Hpos|]. split; [exact Hcap|].
  unfold estimate_default, _estimate_settling_time.
  destruct (poles tf) as [|p l] eqn:E.
  - split; [intros _; reflexivity|]. split; intro H; congruence.
  - cbn [length Nat.eqb]. split; [discriminate|].
    set (s := np_max (np_real (p :: l))). clearbody s. split; intros _ Hs.
    + rewrite (proj2 (Qle_bool_iff 0 s) Hs). reflexivity.
    + rewrite (TuningFacts.Qle_bool_gt 0 s Hs).
      apply Q.min_compat; [|reflexivity]. field. lra.
Qed.

Lemma estimate_witness : estimate_default tf_unstable == 1000.
Proof.
  apply (estimate_is_positive_and_capped tf_unstable).
  - discriminate.
  - discriminate.
Defined.

(** *** The time vector *)

Lemma np_linspace_length (start stop : Q) (num : nat) :
  length (np_linspace start stop num) = num.
Proof. unfold np_linspace. rewrite length_map, length_seq. reflexivity. Qed.





(** *** Success and failure of a simulation *)

Lemma simulation_time_ok_iff
    (tf : TransferFunction) (t_final : option Q) (num_points : Z) (input_magnitude : Q)
    (r : TransferFunction * list Q) :
  simulation_time (Some tf) t_final num_points input_magnitude = Ok r <->
  (is_stable tf default_tolerance = true /\ (10 <= num_points)%Z /\
   0 < input_magnitude /\ (forall h, t_final = Some h -> 0 < h) /\
   r = (tf, np_linspace 0 (horizon tf t_final) (Z.to_nat num_points))).
Proof.
  unfold simulation_time, horizon.
  destruct (is_stable tf default_tolerance); cbn [negb];
    [|split; [discriminate | intros (H & _); discriminate H]].
  destruct (num_points <? 10)%Z eqn:En.
  { apply Z.ltb_lt in En. split; [discriminate | intros (_ & H & _); lia]. }
  apply Z.ltb_ge in En.
  destruct (Qle_bool input_magnitude 0) eqn:Em.
  { apply Qle_bool_iff in Em. split; [discriminate | intros (_ & _ & H & _); lra]. }
  apply Qle_bool_false_iff in Em.
  destruct t_final as [h|].
  - destruct (Qle_bool h 0) eqn:Eh.
    + apply Qle_bool_iff in Eh. split; [discriminate|].
      intros (_ & _ & _ & H & _). specialize (H h eq_refl). lra.
    + apply Qle_bool_false_iff in Eh. split.
      * intro H. injection H as <-. repeat split; try assumption.
        intros h' H'. injection H' as <-. exact Eh.
      * intros (_ & _ & _ & _ & ->). reflexivity.
  - split.
    + intro H. injection H as <-. repeat split; try assumption.
      intros h' H'. discriminate H'.
    + intros (_ & _ & _ & _ & ->). reflexivity.
Qed.

(** A simulation returns a trace exactly when the system is stable,
    num_points is at least 10, the magnitude is positive, a requested
    final time is positive, and the integrator succeeds on the time
    vector from 0 to the horizon; in every other case it raises. *)
Theorem simulation_succeeds_exactly_when
    (ct_step_response : TransferFunction -> list Q -> option (list Q * list Q))
    (tf : TransferFunction) (t_final : option Q) (num_points : Z) (input_magnitude : Q) :
  (exists r, simulate_step_response ct_step_response (Some tf) t_final num_points
               input_magnitude = Ok r) <->
  (is_stable tf default_tolerance = true /\ (10 <= num_points)%Z /\
   0 < input_magnitude /\ (forall h, t_final = Some h -> 0 < h) /\
   exists out,
     ct_step_response tf (np_linspace 0 (horizon tf t_final) (Z.to_nat num_points))
       = Some out).
Proof.
  unfold simulate_step_response. split.
  - intros [r Hr].
    destruct (simulation_time (Some tf) t_final num_points input_magnitude)
      as [[tf' time]|e] eqn:E; [|discriminate].
    apply simulation_time_ok_iff in E. destruct E as (Hs & Hn & Hm & Hh & Heq).
    injection Heq as -> ->. repeat split; try assumption.
    destruct (ct_step_response tf _) as [out|]; [|discriminate].
    exists out. reflexivity.
  - intros (Hs & Hn & Hm & Hh & [[t y] Hout]).
    rewrite (proj2 (simulation_time_ok_iff tf t_final num_points input_magnitude _)
               (conj Hs (conj Hn (conj Hm (conj Hh eq_refl))))).
    rewrite Hout. eexists. reflexivity.
Qed.

Lemma simulation_succeeds_witness :
  exists r, simulate_step_response zero_step_response (Some tf_stable) (Some 5) 20 2 = Ok r.
Proof.
  apply (proj2 (simulation_succeeds_exactly_when
                  zero_step_response tf_stable (Some 5) 20 2)).
  split; [reflexivity|]. split; [lia|]. split; [reflexivity|]. split.
  - intros h H. injection H as <-. reflexivity.
  - eexists. reflexivity.
Defined.

(** The response is linear in the input magnitude: with the same system,
    final time and number of points, the trace for a positive magnitude m
    has the time vector of the unit-step trace and m times its output. *)
Theorem step_response_scales_with_magnitude
    (ct_step_response : TransferFunction -> list Q -> option (list Q * list Q))
    (tf : option TransferFunction) (t_final : option Q) (num_points : Z)
    (m : Q) (t y1 : list Q) :
  simulate_step_response ct_step_response tf t_final num_points 1 = Ok (t, y1) ->
  0 < m ->
  exists y,
    simulate_step_response ct_step_response tf t_final num_points m = Ok (t, y) /\
    Forall2 (fun v v1 => v == m * v1) y y1.
Proof.
  unfold simulate_step_response. intros H Hm.
  destruct tf as [tf|]; [|discriminate H].
  destruct (simulation_time (Some tf) t_final num_points 1) as [[tf' time]|e] eqn:E;
    [|discriminate H].
  apply simulation_time_ok_iff in E. destruct E as (Hs & Hn & _ & Hh & Heq).
  injection Heq as -> ->.
  rewrite (proj2 (simulation_time_ok_iff tf t_final num_points m _)
             (conj Hs (conj Hn (conj Hm (conj Hh eq_refl))))).
  destruct (ct_step_response tf _) as [[t' y']|]; [|discriminate H].
  injection H as -> <-. eexists. split; [reflexivity|].
  induction y' as [|v l IH]; cbn [map]; constructor; [ring | exact IH].
Qed.

Lemma step_response_scaling_witness :
  exists y,
    simulate_step_response ramp_step_response (Some tf_stable) (Some 9) 10 3
      = Ok (np_linspace 0 9 10, y) /\
    Forall2 (fun v v1 => v == 3 * v1) y (map (fun v => v * 1) (np_linspace 0 9 10)) /\
    nth 1 y 0 == 3 /\ nth 9 y 0 == 27.
Proof.
  destruct (step_response_scales_with_magnitude ramp_step_response (Some tf_stable)
              (Some 9) 10 3 (np_linspace 0 9 10) (map (fun v => v * 1) (np_linspace 0 9 10))
              eq_refl eq_refl) as (y & Hy & Hscaled).
  exists y. split; [exact Hy|]. split; [exact Hscaled|].
  assert (E : simulate_step_response ramp_step_response (Some tf_stable) (Some 9) 10 3
              = Ok (np_linspace 0 9 10, map (fun v => v * 3) (np_linspace 0 9 10)))
    by reflexivity.
  rewrite E in Hy. injection Hy as <-. split; vm_compute; reflexivity.
Defined.

(** The shape of a simulated trace is what the metrics need.  If the
    integrator returns arrays as long as the time vector it is given, a
    trace returned by a simulation has at least 10 samples and as many
    output samples as time samples.  So, for a nonzero reference and a
    tolerance in (0, 1), the metrics computed on float arrays of those
    lengths can only fail for a non-finite sample (such as an output that
    overflowed when multiplied by the magnitude): they are returned exactly
    when every sample is finite. *)
Theorem simulated_trace_is_refused_only_for_non_finite_samples
    (ct_step_response : TransferFunction -> list Q -> option (list Q * list Q))
    (tf : TransferFunction) (t_final : option Q) (num_points : Z)
    (input_magnitude yref tolerance : Q) (t y : list Q) :
  (forall time t' y', ct_step_response tf time = Some (t', y') ->
                      length t' = length time /\ length y' = length time) ->
  simulate_step_response ct_step_response (Some tf) t_final num_points input_magnitude
    = Ok (t, y) ->
  ~ yref == 0 -> 0 < tolerance -> tolerance < 1 ->
  (10 <= length t)%nat /\ length t = length y /\
  forall tF yF : list float,
    length tF = length t -> length yF = length y ->
    ((exists m, calcular_metricas_respuesta tF yF yref tolerance = Ok m) <->
       (any_not_finite tF = false /\ any_not_finite yF = false)) /\
    (any_not_finite tF = true ->
       calcular_metricas_respuesta tF yF yref tolerance
         = Raise (MetricaError t_not_finite)) /\
    (any_not_finite tF = false -> any_not_finite yF = true ->
       calcular_metricas_respuesta tF yF yref tolerance
         = Raise (MetricaError y_not_finite)).
Proof.
  intros Hlib H Hyref Ht0 Ht1. unfold simulate_step_response in H.
  destruct (simulation_time (Some tf) t_final num_points input_magnitude)
    as [[tf' time]|e] eqn:E; [|discriminate H].
  apply simulation_time_ok_iff in E. destruct E as (Hs & Hn & _ & Hh & Heq).
  injection Heq as -> ->.
  destruct (ct_step_response tf _) as [[t' y']|] eqn:Elib; [|discriminate H].
  injection H as <- <-.
  destruct (Hlib _ _ _ Elib) as [Hlt Hly]. rewrite np_linspace_length in Hlt, Hly.
  rewrite length_map.
  assert (H10 : (10 <= length t')%nat) by lia.
  assert (Hlen : length t' = length y') by lia.
  split; [exact H10|]. split; [exact Hlen|].
  intros tF yF HtF HyF. unfold calcular_metricas_respuesta.
  replace (length tF <? 10)%nat with false by (symmetry; apply Nat.ltb_ge; lia).
  replace (length tF =? length yF)%nat with true by (symmetry; apply Nat.eqb_eq; lia).
  cbn [negb].
  replace (Qeq_bool yref 0.0) with false.
  2:{ symmetry. apply not_true_iff_false. intro E. apply Qeq_bool_iff in E.
      apply Hyref. rewrite E. reflexivity. }
  rewrite (TuningFacts.Qle_bool_gt tolerance 0 Ht0), (TuningFacts.Qle_bool_gt 1 tolerance Ht1).
  cbn [orb].
  destruct (any_not_finite tF); [|destruct (any_not_finite yF)].
  - split; [split; [intros [m Hm]; discriminate Hm | intros [Hf _]; discriminate Hf]|].
    split; [reflexivity | discriminate].
  - split; [split; [intros [m Hm]; discriminate Hm | intros [_ Hf]; discriminate Hf]|].
    split; [discriminate | reflexivity].
  - split; [split; [intros _; split; reflexivity | intros _; eexists; reflexivity]|].
    split; discriminate.
Qed.

Lemma simulated_trace_witness :
  (exists m,
     calcular_metricas_respuesta (map Fin (np_linspace 0 9 10))
       (map Fin (map (fun v => v * 2) (np_linspace 0 9 10))) 1 0.05 = Ok m) /\
  calcular_metricas_respuesta (map Fin (np_linspace 0 9 10))
    [Fin 0; Fin 2; Fin 4; Fin 6; Fin 8; Fin 10; Fin 12; Fin 14; Fin 16; PInf] 1 0.05
    = Raise (MetricaError y_not_finite).
Proof.
  destruct (simulated_trace_is_refused_only_for_non_finite_samples
              ramp_step_response tf_stable (Some 9) 10 2 1 0.05
              (np_linspace 0 9 10) (map (fun v => v * 2) (np_linspace 0 9 10)))
    as (_ & _ & Hshape).
  - intros time t' y' H. injection H as <- <-. split; reflexivity.
  - reflexivity.
  - intro H. discriminate H.
  - reflexivity.
  - reflexivity.
  - split.
    + apply (Hshape (map Fin (np_linspace 0 9 10))
                    (map Fin (map (fun v => v * 2) (np_linspace 0 9 10)))).
      * rewrite length_map. reflexivity.
      * rewrite length_map. reflexivity.
      * split; reflexivity.
    + apply (Hshape (map Fin (np_linspace 0 9 10))
                    [Fin 0; Fin 2; Fin 4; Fin 6; Fin 8; Fin 10; Fin 12; Fin 14; Fin 16; PInf]);
        reflexivity.
Defined.

(** *** Several scenarios *)

Lemma unstable_raises
    (ct_step_response : TransferFunction -> list Q -> option (list Q * list Q))
    (tf : TransferFunction) (t_final : option Q) (num_points : Z) (input_magnitude : Q) :
  is_stable tf default_tolerance = false ->
  simulate_step_response ct_step_response (Some tf) t_final num_points input_magnitude
    = Raise (SimulationError unstable_system).
Proof.
  intro H. unfold simulate_step_response, simulation_time. rewrite H. reflexivity.
Qed.

Lemma scenarios_loop_ok
    (ct_step_response : TransferFunction -> list Q -> option (list Q * list Q))
    (t_final : option Q) (num_points : Z)
    (tf_list : list TransferFunction) (labels : list string)
    (results : list (list Q * list Q * string)) :
  length tf_list = length labels ->
  scenarios_loop ct_step_response (combine tf_list labels) t_final num_points = Ok results ->
  map snd results = labels /\
  Forall2 (fun tf r =>
             simulate_step_response ct_step_response (Some tf) t_final num_points 1.0
               = Ok (fst r)) tf_list results.
Proof.
  revert labels results.
  induction tf_list as [|tf tfs IH]; intros [|label labels] results Hlen H;
    try discriminate Hlen.
  - cbn in H. injection H as <-. split; [reflexivity | constructor].
  - cbn [combine scenarios_loop] in H.
    destruct (simulate_step_response ct_step_response (Some tf) t_final num_points 1.0)
      as [[time output]|e] eqn:E; [|discriminate H].
    destruct (scenarios_loop ct_step_response (combine tfs labels) t_final num_points)
      as [rs|e] eqn:El; [|discriminate H].
    injection H as <-. injection Hlen as Hlen.
    destruct (IH labels rs Hlen El) as [Hl Hf].
    split; [cbn; f_equal; exact Hl|]. constructor; [exact E | exact Hf].
Qed.

(** When [simulate_multiple_scenarios] returns, it returns one entry per
    system, in the order given, each carrying its own label and exactly
    the trace [simulate_step_response] gives for that system with a unit
    step. *)
Theorem scenarios_results_follow_the_inputs
    (ct_step_response : TransferFunction -> list Q -> option (list Q * list Q))
    (tf_list : list TransferFunction) (labels : list string)
    (t_final : option Q) (num_points : Z)
    (results : list (list Q * list Q * string)) :
  simulate_multiple_scenarios ct_step_response tf_list labels t_final num_points
    = Ok results ->
  length results = length tf_list /\
  map snd results = labels /\
  Forall2 (fun tf r =>
             simulate_step_response ct_step_response (Some tf) t_final num_points 1.0
               = Ok (fst r)) tf_list results.
Proof.
  unfold simulate_multiple_scenarios. intro H.
  destruct (length tf_list =? length labels)%nat eqn:E; cbn [negb] in H; [|discriminate H].
  apply Nat.eqb_eq in E.
  destruct (scenarios_loop_ok _ _ _ _ _ _ E H) as [Hl Hf].
  split; [|split; assumption].
  symmetry. apply (Forall2_length Hf).
Qed.

Lemma scenarios_results_witness :
  exists results,
    simulate_multiple_scenarios zero_step_response [tf_stable; tf_stable]
      ["Sistema 1"; "Sistema 2"]%string (Some 5) 10 = Ok results /\
    length results = 2%nat /\ map snd results = ["Sistema 1"; "Sistema 2"]%string.
Proof.
  eexists. split; [reflexivity|].
  destruct (scenarios_results_follow_the_inputs zero_step_response [tf_stable; tf_stable]
              ["Sistema 1"; "Sistema 2"]%string (Some 5) 10 _ eq_refl) as (Hlen & Hl & _).
  split; [exact Hlen | exact Hl].
Defined.

(** [simulate_multiple_scenarios] fails as a whole, returning no trace at
    all: with lists of different lengths it raises before any simulation,
    and with lists of equal lengths one unstable system anywhere in the
    list makes the call raise the error of a simulation. *)
Theorem scenarios_fail_as_a_whole
    (ct_step_response : TransferFunction -> list Q -> option (list Q * list Q))
    (tf_list : list TransferFunction) (labels : list string)
    (t_final : option Q) (num_points : Z) :
  (length tf_list <> length labels ->
     simulate_multiple_scenarios ct_step_response tf_list labels t_final num_points
       = Raise lengths_differ) /\
  (length tf_list = length labels ->
   (exists tf, In tf tf_list /\ is_stable tf default_tolerance = false) ->
     exists e,
       simulate_multiple_scenarios ct_step_response tf_list labels t_final num_points
         = Raise (from_simulation e)).
Proof.
  unfold simulate_multiple_scenarios. split.
  - intro H. apply Nat.eqb_neq in H. rewrite H. reflexivity.
  - intros Hlen [tf [Hin Hu]].
    rewrite (proj2 (Nat.eqb_eq _ _) Hlen). cbn [negb].
    revert labels Hlen.
    induction tf_list as [|tf0 tfs IH]; intros [|label labels] Hlen;
      try discriminate Hlen; [destruct Hin|].
    cbn [combine scenarios_loop].
    destruct (simulate_step_response ct_step_response (Some tf0) t_final num_points 1.0)
      as [[time output]|e] eqn:E; [|eexists; reflexivity].
    destruct Hin as [-> | Hin].
    + rewrite (unstable_raises _ _ _ _ _ Hu) in E. discriminate E.
    + injection Hlen as Hlen. destruct (IH Hin labels Hlen) as [e He].
      rewrite He. eexists. reflexivity.
Qed.

Lemma scenarios_fail_witness :
  exists e,
    simulate_multiple_scenarios zero_step_response [tf_stable; tf_unstable]
      ["Sistema 1"; "Sistema 2"]%string (Some 5) 10 = Raise (from_simulation e).
Proof.
  apply (scenarios_fail_as_a_whole zero_step_response [tf_stable; tf_unstable]
           ["Sistema 1"; "Sistema 2"]%string (Some 5) 10).
  - reflexivity.
  - exists tf_unstable. split; [right; left; reflexivity | reflexivity].
Defined.

End OpenLoopMore.

(** ** Facts about the entry checks of the plot *)

Module PlotterFacts.
Import Metrics MetricsFacts Plotter.

(** The entry checks of the metrics, as a boolean. *)
Lemma metrics_accept_iff (t y : list float) (yref tolerance : Q) :
  (exists m, calcular_metricas_respuesta t y yref tolerance = Ok m) <->
  ((length t <? 10)%nat = false /\ (length t =? length y)%nat = true /\
   any_not_finite t = false /\ any_not_finite y = false /\
   Qeq_bool yref 0.0 = false /\
   Qle_bool tolerance 0 || Qle_bool 1 tolerance = false).
Proof.
  unfold calcular_metricas_respuesta.
  destruct (length t <? 10)%nat; [split; [intros [m H]; discriminate H | intros (H & _); discriminate H]|].
  destruct (length t =? length y)%nat; cbn [negb];
    [|split; [intros [m H]; discriminate H | intros (_ & H & _); discriminate H]].
  destruct (any_not_finite t);
    [split; [intros [m H]; discriminate H | intros (_ & _ & H & _); discriminate H]|].
  destruct (any_not_finite y);
    [split; [intros [m H]; discriminate H | intros (_ & _ & _ & H & _); discriminate H]|].
  destruct (Qeq_bool yref 0.0);
    [split; [intros [m H]; discriminate H | intros (_ & _ & _ & _ & H & _); discriminate H]|].
  destruct (Qle_bool tolerance 0 || Qle_bool 1 tolerance);
    [split; [intros [m H]; discriminate H | intros (_ & _ & _ & _ & _ & H); discriminate H]|].
  split; [intros _; repeat split | intros _; eexists; reflexivity].
Qed.

(** The plot and the metrics agree on what a usable trace is: the plot's
    entry checks accept a pair of traces, for a reference and a tolerance,
    exactly when the metrics accept each of the two traces for the same
    reference and tolerance. *)
Theorem plot_accepts_what_metrics_accept
    (t_planta y_planta t_pid y_pid : list float) (yref tolerance : Q) :
  graficar_respuestas_checks t_planta y_planta t_pid y_pid yref tolerance = Ok tt <->
  ((exists m, calcular_metricas_respuesta t_planta y_planta yref tolerance = Ok m) /\
   (exists m, calcular_metricas_respuesta t_pid y_pid yref tolerance = Ok m)).
Proof.
  rewrite !metrics_accept_iff. unfold graficar_respuestas_checks.
  destruct (length t_planta <? 10)%nat; [split; [discriminate | intros [(H & _) _]; discriminate H]|].
  destruct (length t_pid <? 10)%nat; [split; [discriminate | intros [_ (H & _)]; discriminate H]|].
  destruct (length t_planta =? length y_planta)%nat; cbn [negb];
    [|split; [discriminate | intros [(_ & H & _) _]; discriminate H]].
  destruct (length t_pid =? length y_pid)%nat; cbn [negb];
    [|split; [discriminate | intros [_ (_ & H & _)]; discriminate H]].
  destruct (Qeq_bool yref 0.0);
    [split; [discriminate | intros [(_ & _ & _ & _ & H & _) _]; discriminate H]|].
  destruct (Qle_bool tolerance 0 || Qle_bool 1 tolerance);
    [split; [discriminate | intros [(_ & _ & _ & _ & _ & H) _]; discriminate H]|].
  destruct (any_not_finite t_planta); cbn [orb];
    [split; [discriminate | intros [(_ & _ & H & _) _]; discriminate H]|].
  destruct (any_not_finite y_planta);
    [split; [discriminate | intros [(_ & _ & _ & H & _) _]; discriminate H]|].
  destruct (any_not_finite t_pid); cbn [orb];
    [split; [discriminate | intros [_ (_ & _ & H & _)]; discriminate H]|].
  destruct (any_not_finite y_pid);
    [split; [discriminate | intros [_ (_ & _ & _ & H & _)]; discriminate H]|].
  split; [intros _; repeat split | reflexivity].
Qed.

Lemma plot_accepts_witness :
  graficar_respuestas_checks
    (map Fin Examples.t_example) (map Fin Examples.y_example)
    (map Fin Examples.t_example) (map Fin Examples.y_example) 1 0.05 = Ok tt.
Proof.
  apply (proj2 (plot_accepts_what_metrics_accept _ _ _ _ 1 0.05)).
  split; eexists; apply (metrics_checks_pass _ _ _ _ example_trace_valid).
Defined.

End PlotterFacts.

(** ** Facts about the Ziegler-Nichols rule on binary64 floats *)

Module Binary64Facts.
Import PrimFloat Binary64.
Local Set Warnings "-inexact-float".

(** On ordinary inputs the binary64 embedding gives the literal case of
    the specification exactly: K = 1, L = 2, T = 10, PID. *)
Lemma zn_binary64_literal_case :
  sintonia_pid_ziegler_nichols 1%float 2%float 10%float "PID"
    = ([], Ok (6%float, 4%float, 1%float)).
Proof. vm_compute. reflexivity. Qed.

(** C3. Ziegler-Nichols evaluated on binary64 floats at K = L = T = 1e-200:
    the model has K > 0, L >= 0, T > 0 and L/T = 1 > 0.5, so every entry
    check passes and the three warning lines are printed; then the product
    L*K underflows to 0.0 and the gain formula ends in Python's
    ZeroDivisionError, for each of the three control types.  The high-ratio
    call does not complete. *)
Theorem zn_high_ratio_underflow_raises :
  (0 <? tiny)%float = true /\ (0 <=? tiny)%float = true /\
  (0.5 <? tiny / tiny)%float = true /\ (tiny * tiny =? 0)%float = true /\
  sintonia_pid_ziegler_nichols tiny tiny tiny "P"
    = ([advertencia_relacion 1%float; metodo_menos_preciso; considera_cohen_coon],
       Raise ZeroDivisionError) /\
  sintonia_pid_ziegler_nichols tiny tiny tiny "PI"
    = ([advertencia_relacion 1%float; metodo_menos_preciso; considera_cohen_coon],
       Raise ZeroDivisionError) /\
  sintonia_pid_ziegler_nichols tiny tiny tiny "PID"
    = ([advertencia_relacion 1%float; metodo_menos_preciso; considera_cohen_coon],
       Raise ZeroDivisionError).
Proof. vm_compute. repeat split; reflexivity. Qed.

End Binary64Facts.
